(** * Graph analytics pipeline of the networking RCA indexer

    A shallow embedding of the clustering and summarization stages
    ([Projector.py], [LeidenEngineHierarchical.py], [BridgeIdentifier.py],
    [DriftDetector.py], [Fingerprinter.py], [TopologyFilter.py]) and the
    properties their specification states about them.

    Conventions of the embedding:
    - a Python [dict] is an association list in insertion order ([dict K V]);
      a dict read by [json.load] has pairwise distinct keys, which theorems
      assume as [NoDup d.*1] where they need it;
    - node ids are the string keys of the community map, community ids are
      integers, and [str] of an integer is its decimal rendering;
    - exceptions are the [Raise] outcomes of the [result] monad;
    - external libraries ([hashlib], [leidenalg], [igraph], [numpy]) are
      type classes: every theorem holds for any implementation of them. *)

From stdpp Require Import gmap strings list sorting pretty.
From Stdlib Require Import QArith Lqa Floats.

Local Open Scope Z_scope.

(** ** Python builtins *)

Module Py.

(** Exceptions: [IndexError] is the only one the embedded code can raise by
    itself; [ExternalError] stands for a failure inside an external library;
    [InputShapeError] and [EmptyGraphError] are the validation errors of the
    specification's taxonomy. *)
Inductive exn : Set :=
| IndexError
| ExternalError
| InputShapeError
| EmptyGraphError.

Inductive result (A : Type) : Type :=
| Ok (a : A)
| Raise (e : exn).
Global Arguments Ok {A} a.
Global Arguments Raise {A} e.

Definition bind {A B} (r : result A) (k : A → result B) : result B :=
  match r with
  | Ok a => k a
  | Raise e => Raise e
  end.

(** [for x in l: s = body(s, x)], leaving the loop at the first exception. *)
Fixpoint for_ {A S} (l : list A) (body : S → A → result S) (s : S) : result S :=
  match l with
  | [] => Ok s
  | x :: l' => bind (body s x) (for_ l' body)
  end.

(** [l[i]] for [0 <= i]. *)
Definition getitem {A} (l : list A) (i : nat) : result A :=
  match l !! i with
  | Some a => Ok a
  | None => Raise IndexError
  end.

(** [str(n)] of an integer. *)
Definition str (n : Z) : string := pretty n.

(** [sep.join(l)]. *)
Definition join (sep : string) (l : list string) : string := String.concat sep l.

(** A [dict], in insertion order. *)
Abbreviation dict K V := (list (K * V)) (only parsing).

Section dict.
Context {K V : Type} `{EqDecision K}.
Abbreviation dict := (list (K * V)) (only parsing).

(** [d.get(k)] *)
Fixpoint get (k : K) (d : dict) : option V :=
  match d with
  | [] => None
  | (k', v) :: d' => if decide (k' = k) then Some v else get k d'
  end.

(** [d[k] = v]: an existing key keeps its position, a new one goes last. *)
Fixpoint set (k : K) (v : V) (d : dict) : dict :=
  match d with
  | [] => [(k, v)]
  | (k', v') :: d' =>
      if decide (k' = k) then (k', v) :: d' else (k', v') :: set k v d'
  end.

(** [d.keys()] *)
Definition keys (d : dict) : list K := d.*1.
End dict.

(** [d[k].append(x)] on a [defaultdict(list)], or on a dict that has the key
    [k]. *)
Definition append {K A} `{EqDecision K} (k : K) (x : A) (d : dict K (list A)) :
    dict K (list A) :=
  set k (default [] (get k d) ++ [x]) d.

Section sorting.
Context {A : Type} (le : A → A → bool).

Fixpoint insert (x : A) (l : list A) : list A :=
  match l with
  | [] => [x]
  | y :: l' => if le x y then x :: l else y :: insert x l'
  end.

(** [sorted(l)] for the order [le]. Python's sort is stable, and so is this
    one: an element is placed before the elements of the sorted tail it is
    not greater than, so equal elements keep their order. With
    [le x y := key y <= key x] this is [sorted(l, key=key, reverse=True)],
    which is stable as well. *)
Definition sorted (l : list A) : list A := foldr insert [] l.
End sorting.

End Py.

Global Instance result_ret : MRet Py.result := @Py.Ok.
Global Instance result_bind : MBind Py.result := λ A B k r, Py.bind r k.

(** The order a boolean comparison decides. *)
Definition rel_of {A} (le : A → A → bool) : relation A := λ x y, le x y.

(** ** The community assignment shared by the analyses *)

(** An entry of [community_map.json]. *)
Record comms : Set := Comms { macro_community : Z; micro_community : Z }.

Global Instance comms_eq_dec : EqDecision comms.
Proof. solve_decision. Defined.

(** The member lists built by
    [for node_id, c in community_map.items(): groups[level(c)].append(node_id)].
    The fingerprinter appends [str(node_id)], which is [node_id] itself for the
    string key of a JSON object. *)
Definition group_by (level : comms → Z) (community_map : Py.dict string comms) :
    Py.dict Z (list string) :=
  foldl (λ groups nc, Py.append (level nc.2) nc.1 groups) [] community_map.

(** The node ids of [community_map] whose community at [level] is [c], in the
    order of the map. *)
Definition members (level : comms → Z) (c : Z) (community_map : Py.dict string comms) :
    list string :=
  (filter (λ nc, level nc.2 = c) community_map).*1.

(** ** Fingerprinter.py *)

(** [hashlib.sha256(content.encode()).hexdigest()] *)
Class Hashlib := sha256_hexdigest : string → string.

Module CommunityFingerprinter.

Record fingerprints : Type := Fingerprints {
  macro_communities : Py.dict string string;
  micro_communities : Py.dict string string
}.

Section with_hashlib.
Context `{Hashlib}.

Definition _hash_nodes (node_list : list string) : string :=
  let sorted_nodes := Py.sorted String.leb node_list in
  let content := Py.join "," sorted_nodes in
  sha256_hexdigest content.

(** [for m_id, nodes in groups.items(): fp[str(m_id)] = self._hash_nodes(nodes)] *)
Definition hash_groups (groups : Py.dict Z (list string)) : Py.dict string string :=
  foldl (λ fp g, Py.set (Py.str g.1) (_hash_nodes g.2) fp) [] groups.

Definition generate_fingerprints (community_map : Py.dict string comms) : fingerprints :=
  let macro_groups := group_by macro_community community_map in
  let micro_groups := group_by micro_community community_map in
  {| macro_communities := hash_groups macro_groups;
     micro_communities := hash_groups micro_groups |}.

End with_hashlib.
End CommunityFingerprinter.

(** An implementation of the [hashlib] interface to run examples with: the
    digest of a text is the text. *)
Definition transparent_digest : Hashlib := λ s, s.

(** ** The projection artifact *)

Inductive edge_type : Set := structural | semantic.

(** A record of [weighted_projection.csv] as [pandas.read_csv] yields it:
    [source] and [target] are the integers [int(row['source'])] and
    [int(row['target'])]; the weight, a decimal text with four digits, is a
    rational. *)
Record row : Set := Row { source : Z; target : Z; weight : Q; type : edge_type }.

(** ** BridgeIdentifier.py *)

Module BridgeIdentifier.

Inductive score_key : Set := macro_bridge_score | micro_bridge_score.

Global Instance score_key_eq_dec : EqDecision score_key.
Proof. solve_decision. Defined.

Record bridge : Set := Bridge { node_id : string; macro_score : nat; micro_score : nat }.

Definition _update_score (data : Py.dict string (Py.dict score_key nat))
    (node_id : string) (key : score_key) : Py.dict string (Py.dict score_key nat) :=
  let data := if decide (node_id ∈ Py.keys data) then data else Py.set node_id [] data in
  let scores := default [] (Py.get node_id data) in
  Py.set node_id (Py.set key (default 0 (Py.get key scores) + 1)%nat scores) data.

(** The body of the loop over the rows of the projection. *)
Definition scan_edge (community_map : Py.dict string comms)
    (bridge_data : Py.dict string (Py.dict score_key nat)) (r : row) :
    Py.dict string (Py.dict score_key nat) :=
  let src_id := Py.str (source r) in
  let tgt_id := Py.str (target r) in
  match Py.get src_id community_map, Py.get tgt_id community_map with
  | Some src_comm, Some tgt_comm =>
      let bridge_data :=
        if decide (macro_community src_comm ≠ macro_community tgt_comm)
        then _update_score (_update_score bridge_data src_id macro_bridge_score)
                           tgt_id macro_bridge_score
        else bridge_data in
      if decide (micro_community src_comm ≠ micro_community tgt_comm)
      then _update_score (_update_score bridge_data src_id micro_bridge_score)
                         tgt_id micro_bridge_score
      else bridge_data
  | _, _ => bridge_data
  end.

(** [(a1, b1) <= (a2, b2)] on tuples of integers. *)
Definition tuple_leb (p q : nat * nat) : bool :=
  (p.1 <? q.1)%nat || ((p.1 =? q.1)%nat && (p.2 <=? q.2)%nat).

Definition sort_key (x : bridge) : nat * nat := (macro_score x, micro_score x).

Definition identify_bridges (df : list row) (community_map : Py.dict string comms) :
    list bridge :=
  let bridge_data := foldl (scan_edge community_map) [] df in
  let bridges :=
    (λ item, {| node_id := item.1;
                macro_score := default 0%nat (Py.get macro_bridge_score item.2);
                micro_score := default 0%nat (Py.get micro_bridge_score item.2) |})
      <$> bridge_data in
  Py.sorted (λ x y, tuple_leb (sort_key y) (sort_key x)) bridges.

End BridgeIdentifier.

(** *** What the specification counts *)

(** The score of [n] under [key] as [identify_bridges] reads it from the
    scores gathered so far. *)
Definition score_of (key : BridgeIdentifier.score_key)
    (data : Py.dict string (Py.dict BridgeIdentifier.score_key nat)) (n : string) : nat :=
  default 0%nat (Py.get n data ≫= Py.get key).

Definition level_of (key : BridgeIdentifier.score_key) : comms → Z :=
  match key with
  | BridgeIdentifier.macro_bridge_score => macro_community
  | BridgeIdentifier.micro_bridge_score => micro_community
  end.

(** Row [r] has both endpoints in the assignment, in different communities at
    [level]. *)
Definition crossing (level : comms → Z) (community_map : Py.dict string comms)
    (r : row) : bool :=
  match Py.get (Py.str (source r)) community_map,
        Py.get (Py.str (target r)) community_map with
  | Some s, Some t => bool_decide (level s ≠ level t)
  | _, _ => false
  end.

Definition incident (r : row) (n : string) : bool :=
  bool_decide (Py.str (source r) = n) || bool_decide (Py.str (target r) = n).

(** [x] may precede [y] in a list sorted by [(macro_score, micro_score)]
    descending. *)
Definition by_scores_descending (x y : BridgeIdentifier.bridge) : Prop :=
  (BridgeIdentifier.macro_score y < BridgeIdentifier.macro_score x
   ∨ (BridgeIdentifier.macro_score y = BridgeIdentifier.macro_score x
      ∧ BridgeIdentifier.micro_score y ≤ BridgeIdentifier.micro_score x))%nat.

(** Every recorded node has a positive score. *)
Definition scored (data : Py.dict string (Py.dict BridgeIdentifier.score_key nat)) : Prop :=
  ∀ n, n ∈ Py.keys data
       ↔ (0 < score_of BridgeIdentifier.macro_bridge_score data n
              + score_of BridgeIdentifier.micro_bridge_score data n)%nat.

(** The number of rows incident to [n] that cross communities at [level]. *)
Definition cross_degree (level : comms → Z) (community_map : Py.dict string comms)
    (df : list row) (n : string) : nat :=
  length (filter (λ r, crossing level community_map r && incident r n) df).

(** ** DriftDetector.py *)

Module DriftDetector.

Inductive drift_tag : Set := MACRO | MICRO.

(** An element of [migrated_nodes]. *)
Record migration : Set := Migration {
  node_id : string;
  from_macro : Z;
  to_macro : Z;
  from_micro : Z;
  to_micro : Z;
  drift_type : drift_tag
}.

(** The [summary] of a report. [stability_index] is a float in the source,
    computed as [1.0 - (drift_count / total)] from two integers; it is the
    rational with that value here. *)
Record report_summary : Set := Summary {
  total_nodes : nat;
  drift_count : nat;
  stability_index : Q
}.

Record report : Set := Report {
  stable_nodes : list string;
  migrated_nodes : list migration;
  new_nodes : list string;
  summary : report_summary
}.

(** The body of the loop over the nodes of the current map: [item] is
    [(node_id, current_map[node_id])]. *)
Definition classify (baseline_map : Py.dict string comms) (drift_results : report)
    (item : string * comms) : report :=
  let node_id := item.1 in
  let curr := item.2 in
  match Py.get node_id baseline_map with
  | None =>
      {| stable_nodes := stable_nodes drift_results;
         migrated_nodes := migrated_nodes drift_results;
         new_nodes := new_nodes drift_results ++ [node_id];
         summary := summary drift_results |}
  | Some prev =>
      let is_macro_drift := bool_decide (macro_community curr ≠ macro_community prev) in
      let is_micro_drift := bool_decide (micro_community curr ≠ micro_community prev) in
      if is_macro_drift || is_micro_drift then
        {| stable_nodes := stable_nodes drift_results;
           migrated_nodes := migrated_nodes drift_results ++ [
             {| node_id := node_id;
                from_macro := macro_community prev;
                to_macro := macro_community curr;
                from_micro := micro_community prev;
                to_micro := micro_community curr;
                drift_type := if is_macro_drift then MACRO else MICRO |}];
           new_nodes := new_nodes drift_results;
           summary :=
             {| total_nodes := total_nodes (summary drift_results);
                drift_count := drift_count (summary drift_results) + 1;
                stability_index := stability_index (summary drift_results) |} |}
      else
        {| stable_nodes := stable_nodes drift_results ++ [node_id];
           migrated_nodes := migrated_nodes drift_results;
           new_nodes := new_nodes drift_results;
           summary := summary drift_results |}
  end.

Definition detect_drift (current_map baseline_map : Py.dict string comms) : report :=
  let all_node_ids : gset string :=
    list_to_set (Py.keys current_map) ∪ list_to_set (Py.keys baseline_map) in
  let drift_results :=
    {| stable_nodes := []; migrated_nodes := []; new_nodes := [];
       summary := {| total_nodes := size all_node_ids;
                     drift_count := 0;
                     stability_index := 0 |} |} in
  let drift_results := foldl (classify baseline_map) drift_results current_map in
  let total := total_nodes (summary drift_results) in
  if bool_decide (0 < total)%nat then
    {| stable_nodes := stable_nodes drift_results;
       migrated_nodes := migrated_nodes drift_results;
       new_nodes := new_nodes drift_results;
       summary :=
         {| total_nodes := total;
            drift_count := drift_count (summary drift_results);
            stability_index :=
              1 - inject_Z (Z.of_nat (drift_count (summary drift_results)))
                  / inject_Z (Z.of_nat total) |} |}
  else drift_results.

End DriftDetector.

(** *** What the specification says of a node of the current map *)

Inductive verdict : Set :=
| IsNew
| IsStable
| IsMigrated (m : DriftDetector.migration).

Definition verdict_of (baseline_map : Py.dict string comms) (item : string * comms) :
    verdict :=
  match Py.get item.1 baseline_map with
  | None => IsNew
  | Some prev =>
      if decide (macro_community item.2 = macro_community prev
                 ∧ micro_community item.2 = micro_community prev)
      then IsStable
      else IsMigrated
             {| DriftDetector.node_id := item.1;
                DriftDetector.from_macro := macro_community prev;
                DriftDetector.to_macro := macro_community item.2;
                DriftDetector.from_micro := micro_community prev;
                DriftDetector.to_micro := micro_community item.2;
                DriftDetector.drift_type :=
                  if decide (macro_community item.2 = macro_community prev)
                  then DriftDetector.MICRO else DriftDetector.MACRO |}
  end.


(** The contribution of a node of the current map to each list of the
    report. *)
Definition new_of (baseline_map : Py.dict string comms) (item : string * comms) :
    option string :=
  match verdict_of baseline_map item with IsNew => Some item.1 | _ => None end.

Definition stable_of (baseline_map : Py.dict string comms) (item : string * comms) :
    option string :=
  match verdict_of baseline_map item with IsStable => Some item.1 | _ => None end.

Definition migration_of (baseline_map : Py.dict string comms) (item : string * comms) :
    option DriftDetector.migration :=
  match verdict_of baseline_map item with IsMigrated m => Some m | _ => None end.

(** ** Projector.py *)

(** The two [numpy] functions the projector calls on embedding vectors. The
    scalars they return are IEEE 754 binary64 numbers, and the comparisons
    and products on them are the primitive ones. *)
Class Numpy (vec : Type) := {
  linalg_norm : vec → float;
  dot : vec → vec → float
}.

Global Instance edge_type_eq_dec : EqDecision edge_type.
Proof. solve_decision. Defined.

Module GraphProjector.

(** The fields of [self]. *)
Record projector : Set := Projector { alpha : float; beta : float; threshold : float }.

(** A structural edge of the knowledge graph, [{'source': ..., 'target': ...}]. *)
Record causal_link : Set := CausalLink { source : string; target : string }.

(** [(source, target, weight, type)] *)
Abbreviation projected_edge := (string * string * float * edge_type)%type (only parsing).

Section with_numpy.
Context {vec : Type} `{Numpy vec}.

(** The guard returns the integer [0] in the source; compared with the
    threshold and multiplied by [beta] it is the float [0]. *)
Definition cosine_similarity (vec_a vec_b : vec) : float :=
  let norm_a := linalg_norm vec_a in
  let norm_b := linalg_norm vec_b in
  if (norm_a =? 0)%float || (norm_b =? 0)%float then 0%float
  else (dot vec_a vec_b / (norm_a * norm_b))%float.

(** The body of the inner loop, for the indices [i] and [j]. *)
Definition compare_pair (self : projector) (node_ids : list string) (embeddings : list vec)
    (i : nat) (projected_edges : list projected_edge) (j : nat) :
    Py.result (list projected_edge) :=
  id_i ← Py.getitem node_ids i;
  id_j ← Py.getitem node_ids j;
  vec_i ← Py.getitem embeddings i;
  vec_j ← Py.getitem embeddings j;
  let sim := cosine_similarity vec_i vec_j in
  if (threshold self <=? sim)%float then
    let weight := (sim * beta self)%float in
    mret (projected_edges ++ [(id_i, id_j, weight, semantic)])
  else mret projected_edges.

Definition build_projection (self : projector) (nodes : Py.dict string string)
    (edges : list causal_link) (embeddings : list vec) :
    Py.result (list projected_edge) :=
  let node_ids := Py.keys nodes in
  let projected_edges :=
    (λ edge, (source edge, target edge, alpha self, structural)) <$> edges in
  let num_nodes := length node_ids in
  Py.for_ (seq 0 num_nodes)
    (λ projected_edges i,
       Py.for_ (seq (i + 1) (num_nodes - (i + 1)))
         (compare_pair self node_ids embeddings i) projected_edges)
    projected_edges.

End with_numpy.
End GraphProjector.

(** An implementation of the [numpy] interface on lists of floats, to run
    examples with: sums from left to right, and the square root of the sum of
    squares. *)
Definition list_dot (a b : list float) : float :=
  foldl (λ acc xy, (acc + xy.1 * xy.2)%float) 0%float (zip a b).

Definition list_numpy : Numpy (list float) :=
  {| linalg_norm := λ a, PrimFloat.sqrt (list_dot a a); dot := list_dot |}.

(** *** What the specification says of the semantic edges *)

Section semantic_edges.
Context {vec : Type} `{Numpy vec}.

(** The semantic edge of the index pair [(i, j)], if the pair has one. *)
Definition semantic_edge (self : GraphProjector.projector) (node_ids : list string)
    (embeddings : list vec) (i j : nat) : option GraphProjector.projected_edge :=
  match node_ids !! i, node_ids !! j, embeddings !! i, embeddings !! j with
  | Some id_i, Some id_j, Some vec_i, Some vec_j =>
      let sim := GraphProjector.cosine_similarity vec_i vec_j in
      if (GraphProjector.threshold self <=? sim)%float
      then Some (id_i, id_j, (sim * GraphProjector.beta self)%float, semantic)
      else None
  | _, _, _, _ => None
  end.

(** The semantic edges of all pairs [i < j], in the order of the loops. *)
Definition semantic_edges (self : GraphProjector.projector) (node_ids : list string)
    (embeddings : list vec) : list GraphProjector.projected_edge :=
  i ← seq 0 (length node_ids);
  j ← seq (i + 1) (length node_ids - (i + 1));
  option_list (semantic_edge self node_ids embeddings i j).
End semantic_edges.


(** The data of the projector's self-test. *)
Definition mock_nodes : Py.dict string string :=
  [("101", "BGP_DOWN"); ("102", "HOLD_TIMER_EXPIRED"); ("103", "MTU_MISMATCH")].

Definition mock_edges : list GraphProjector.causal_link :=
  [GraphProjector.CausalLink "102" "101"].

Definition mock_embeddings : list (list float) :=
  [[1.0; 0.2; 0.0]; [0.9; 0.3; 0.1]; [0.1; 0.8; 0.9]]%float.

Definition default_projector : GraphProjector.projector :=
  GraphProjector.Projector 1.0 0.5 0.85.

(** ** igraph *)

Module Igraph.

(** A directed graph built from an edge list: the vertex names in the order
    of their first occurrence, and the edges between vertex indices with
    their weight. The names are the integers [int(name)] of the numeric
    [source] and [target] columns. *)
Record graph : Set := Graph { vs_name : list Z; es : list (nat * nat * Q) }.

(** The index of the vertex named [x], a new vertex being added for a name
    not seen before. *)
Definition vertex_id (names : list Z) (x : Z) : list Z * nat :=
  match list_find (λ y, y = x) names with
  | Some (i, _) => (names, i)
  | None => (names ++ [x], length names)
  end.

(** [Graph.TupleList(tuples, directed=True, edge_attrs=['weight'])] *)
Definition TupleList (tuples : list (Z * Z * Q)) : graph :=
  foldl (λ g t,
           let '(names, i) := vertex_id (vs_name g) t.1.1 in
           let '(names, j) := vertex_id names t.1.2 in
           {| vs_name := names; es := es g ++ [(i, j, t.2)] |})
        {| vs_name := []; es := [] |} tuples.

End Igraph.

(** [enumerate(l)] *)
Definition enumerate {A} (l : list A) : list (nat * A) := zip (seq 0 (length l)) l.

(** [df[['source', 'target', 'weight']].values] as tuples. *)
Definition edge_tuples (df : list row) : list (Z * Z * Q) :=
  (λ r, (source r, target r, weight r)) <$> df.

(** ** LeidenEngineHierarchical.py *)

(** [leidenalg.find_partition(g, RBConfigurationVertexPartition,
    weights='weight', resolution_parameter=res)], reduced to the membership
    list of the partition it returns, or to the exception it raises. *)
Class Leidenalg := find_partition : Igraph.graph → Q → Py.result (list Z).

Module LeidenEngineHierarchical.

(** The fields of [self]: the resolutions are floats in the source, which
    only orders them and passes them on; they are rationals here. *)
Record engine : Set := Engine { resolutions : list Q }.

Definition __init__ (resolutions : list Q) : engine :=
  {| resolutions := Py.sorted Qle_bool resolutions |}.

(** An element of [tree["levels"]]. *)
Record level : Type := Level {
  resolution : Q;
  communities : Py.dict Z (list string)
}.

(** The body of the loop over the vertices at one level: [state] holds
    [hierarchical_map], as the path of each node, and
    [level_data["communities"]]. *)
Definition assign_level (membership : list Z)
    (state : Py.dict string (list Z) * Py.dict Z (list string)) (item : nat * Z) :
    Py.result (Py.dict string (list Z) * Py.dict Z (list string)) :=
  let idx := item.1 in
  let node_name := item.2 in
  comm_id ← Py.getitem membership idx;
  mret (Py.append (Py.str node_name) comm_id state.1,
        Py.append comm_id (Py.str node_name) state.2).

Section with_leidenalg.
Context `{Leidenalg}.

(** The body of the loop over the resolutions. *)
Definition partition_level (g : Igraph.graph)
    (state : Py.dict string (list Z) * list level) (res : Q) :
    Py.result (Py.dict string (list Z) * list level) :=
  partition ← find_partition g res;
  filled ← Py.for_ (enumerate (Igraph.vs_name g)) (assign_level partition) (state.1, []);
  mret (filled.1, state.2 ++ [ {| resolution := res; communities := filled.2 |} ]).

Definition cluster (self : engine) (df : list row) :
    Py.result (Py.dict string (list Z) * list level) :=
  let tuples := edge_tuples df in
  let g := Igraph.TupleList tuples in
  let hierarchical_map :=
    foldl (λ hmap node_name, Py.set (Py.str node_name) [] hmap) [] (Igraph.vs_name g) in
  Py.for_ (resolutions self) (partition_level g) (hierarchical_map, []).

End with_leidenalg.


End LeidenEngineHierarchical.

(** An implementation of the [leidenalg] interface to run examples with: all
    the vertices in community 0. *)
Definition one_community : Leidenalg :=
  λ g res, Py.Ok (replicate (length (Igraph.vs_name g)) 0).

(** *** What the specification says of the hierarchy *)

Section hierarchy.
Context `{Leidenalg}.


End hierarchy.






(** ** TopologyFilter.py *)

(** [enumerate(l, start)] *)
Definition enumerate_from {A} (start : nat) (l : list A) : list (nat * A) :=
  zip (seq start (length l)) l.

(** [g.pagerank(weights='weight')]: the scores of the vertices, by vertex
    index. The scores are floats in the source, which only orders them; they
    are rationals here. *)
Class IgraphPagerank := pagerank : Igraph.graph → list Q.

Module TopologyFilter.

(** An element of a ranking, [{"node_id": ..., "rank": ..., "score": ...}]. *)
Record hub : Set := Hub { node_id : string; rank : nat; score : Q }.

(** The rows of the projection with both endpoints among [nodes]. *)
Definition community_edges (nodes : list string) (edges_df : list row) : list row :=
  filter (λ r, Py.str (source r) ∈ nodes ∧ Py.str (target r) ∈ nodes) edges_df.

Section with_pagerank.
Context `{IgraphPagerank}.

(** The ranking of one community, from its member list: the body of the loop
    over the communities, up to the assignment to [community_hubs]. *)
Definition rank_nodes (top_k : nat) (edges_df : list row) (nodes : list string) :
    Py.result (list hub) :=
  if bool_decide (length nodes < 2)%nat then
    mret ((λ n, {| node_id := n; rank := 1; score := 1 |}) <$> nodes)
  else
    let comm_edges_df := community_edges nodes edges_df in
    match comm_edges_df with
    | [] =>
        mret ((λ n, {| node_id := n; rank := 1; score := 1 |}) <$> take top_k nodes)
    | _ :: _ =>
        let tuples := edge_tuples comm_edges_df in
        let g := Igraph.TupleList tuples in
        let scores := pagerank g in
        node_scores ←
          Py.for_ (enumerate (Igraph.vs_name g))
            (λ node_scores item,
               s ← Py.getitem scores item.1;
               mret (node_scores ++ [(Py.str item.2, s)]))
            [];
        let node_scores := Py.sorted (λ x y, Qle_bool y.2 x.2) node_scores in
        let top_hubs := take top_k node_scores in
        mret ((λ item, {| node_id := item.2.1; rank := item.1; score := item.2.2 |})
                <$> enumerate_from 1 top_hubs)
    end.

Definition extract_hubs (top_k : nat) (edges_df : list row)
    (community_map : Py.dict string comms) : Py.result (Py.dict string (list hub)) :=
  let comm_to_nodes := group_by micro_community community_map in
  Py.for_ comm_to_nodes
    (λ community_hubs item,
       hubs ← rank_nodes top_k edges_df item.2;
       mret (Py.set (Py.str item.1) hubs community_hubs))
    [].

End with_pagerank.
End TopologyFilter.

(** An implementation of the [pagerank] interface to run examples with: the
    share of a vertex is one more than the number of edges into it. *)
Definition in_degree_share : IgraphPagerank :=
  λ g,
    let n := length (Igraph.vs_name g) in
    let m := length (Igraph.es g) in
    (λ i, Z.of_nat (1 + length (filter (λ e, e.1.2 = i) (Igraph.es g)))
          # Pos.of_nat (n + m))
      <$> seq 0 n.

(** *** What the specification says of a ranking *)

(** [pagerank] returns one score per vertex. *)
Definition scores_every_vertex `{IgraphPagerank} : Prop :=
  ∀ g, length (pagerank g) = length (Igraph.vs_name g).


(** The ranking computed by PageRank, as a function of the rows of the
    community. *)
Definition scored_ranking `{IgraphPagerank} (top_k : nat) (edges : list row) :
    list TopologyFilter.hub :=
  let g := Igraph.TupleList (edge_tuples edges) in
  let node_scores := (λ x, (Py.str x.1, x.2)) <$> zip (Igraph.vs_name g) (pagerank g) in
  let top_hubs := take top_k (Py.sorted (λ x y, Qle_bool y.2 x.2) node_scores) in
  (λ item, {| TopologyFilter.node_id := item.2.1;
             TopologyFilter.rank := item.1;
             TopologyFilter.score := item.2.2 |})
    <$> enumerate_from 1 top_hubs.

(** An assignment with micro communities {1, 2, 3, 7}, {4} and {5, 6}, and a
    projection whose rows inside the first one leave node 7 out. *)
Definition hub_map : Py.dict string comms :=
  [("1", Comms 0 0); ("2", Comms 0 0); ("3", Comms 0 0); ("4", Comms 1 1);
   ("5", Comms 1 2); ("6", Comms 1 2); ("7", Comms 0 0)].

Definition hub_proj : list row :=
  [Row 1 2 1 structural; Row 3 2 1 structural; Row 2 4 1 semantic; Row 3 1 1 semantic].

(** *** Further notions for the bridge scan *)

(** [l] with [n] added at its end unless it is there. *)
Definition note (n : string) (l : list string) : list string :=
  if decide (n ∈ l) then l else l ++ [n].

(** Row [r] crosses communities at the macro or at the micro level. *)
Definition crosses (community_map : Py.dict string comms) (r : row) : bool :=
  crossing macro_community community_map r || crossing micro_community community_map r.

(** The endpoints of the crossing rows, in the order in which the scan of the
    projection meets them: the source of a row before its target. *)
Definition first_crossed (community_map : Py.dict string comms) (df : list row) :
    list string :=
  foldl (λ seen r,
           if crosses community_map r
           then note (Py.str (target r)) (note (Py.str (source r)) seen)
           else seen)
        [] df.

(** The scores the specification gives node [n]. *)
Definition bridge_scores (community_map : Py.dict string comms) (df : list row)
    (n : string) : nat * nat :=
  (cross_degree macro_community community_map df n,
   cross_degree micro_community community_map df n).

(* ================================================================= *)
(** * Properties *)

(** ** Dictionaries *)

Section dict_facts.
Context {K V : Type} `{EqDecision K}.
Implicit Types (d : Py.dict K V) (k : K) (v : V).

Lemma get_set d k k' v :
  Py.get k' (Py.set k v d) = if decide (k = k') then Some v else Py.get k' d.
Proof.
  induction d as [|[k0 v0] d IH]; simpl.
  - by destruct (decide (k = k')).
  - destruct (decide (k0 = k)) as [->|Hne]; simpl.
    + by destruct (decide (k = k')).
    + rewrite IH. destruct (decide (k0 = k')) as [->|]; [|done].
      by rewrite decide_False.
Qed.

Lemma get_None d k : Py.get k d = None ↔ k ∉ Py.keys d.
Proof.
  unfold Py.keys. induction d as [|[k0 v0] d IH]; simpl.
  - split; [intros _; apply not_elem_of_nil | done].
  - rewrite not_elem_of_cons. destruct (decide (k0 = k)) as [->|].
    + split; [done | intros [? _]; done].
    + rewrite IH. split; [intros ?; split; [congruence | done] | intros [_ ?]; done].
Qed.

Lemma elem_of_keys d k : k ∈ Py.keys d ↔ is_Some (Py.get k d).
Proof.
  destruct (Py.get k d) as [v|] eqn:Hget.
  - split; [by eexists|]. intros _. destruct (decide (k ∈ Py.keys d)) as [|Hn]; [done|].
  apply get_None in Hn. congruence.
  - apply get_None in Hget. split; [done | by intros [? ?]].
Qed.

Lemma get_Some_elem_of d k v : Py.get k d = Some v → (k, v) ∈ d.
Proof.
  induction d as [|[k0 v0] d IH]; simpl; [done|].
  destruct (decide (k0 = k)) as [->|]; [intros [= ->]; left | right; auto].
Qed.

Lemma elem_of_get d k v : NoDup (Py.keys d) → (k, v) ∈ d → Py.get k d = Some v.
Proof.
  unfold Py.keys. induction d as [|[k0 v0] d IH]; simpl.
  - intros _ ?%elem_of_nil. done.
  - intros [Hk0 Hd]%NoDup_cons [[= -> ->]|Hin]%elem_of_cons.
    + by rewrite decide_True.
    + rewrite decide_False; [auto|].
      intros ->. apply Hk0. apply list_elem_of_fmap. by exists (k, v).
Qed.

Lemma keys_set d k v :
  Py.keys (Py.set k v d) = if decide (k ∈ Py.keys d) then Py.keys d else Py.keys d ++ [k].
Proof.
  unfold Py.keys. induction d as [|[k0 v0] d IH]; [done|]. csimpl.
  destruct (decide (k0 = k)) as [->|Hne]; csimpl.
  - rewrite decide_True; [done | left].
  - rewrite IH. destruct (decide (k ∈ d.*1)) as [Hin|Hin].
    + rewrite decide_True; [done | by right].
    + rewrite decide_False; [done|]. rewrite not_elem_of_cons. done.
Qed.

Lemma NoDup_keys_set d k v : NoDup (Py.keys d) → NoDup (Py.keys (Py.set k v d)).
Proof.
  intros Hd. rewrite keys_set. case_decide; [done|].
  apply NoDup_app. split_and!; [done | | apply NoDup_singleton].
  intros x Hx ->%list_elem_of_singleton. done.
Qed.
End dict_facts.

(** ** Sorting *)

Section sorting_facts.
Context {A : Type} (le : A → A → bool).
Implicit Types (x : A) (l : list A).

Lemma insert_Permutation x l : Py.insert le x l ≡ₚ x :: l.
Proof.
  induction l as [|y l IH]; simpl; [done|].
  destruct (le x y); [done|]. rewrite IH. apply Permutation_swap.
Qed.

Lemma sorted_Permutation l : Py.sorted le l ≡ₚ l.
Proof.
  induction l as [|x l IH]; simpl; [done|].
  by rewrite insert_Permutation, IH.
Qed.

Lemma HdRel_insert x y l :
  rel_of le y x → HdRel (rel_of le) y l → HdRel (rel_of le) y (Py.insert le x l).
Proof.
  intros Hyx Hl. destruct l as [|z l]; simpl; [by constructor|].
  destruct (le x z); constructor; [done|]. by inversion Hl.
Qed.

Lemma Sorted_insert x l :
  Total (rel_of le) → Sorted (rel_of le) l → Sorted (rel_of le) (Py.insert le x l).
Proof.
  intros Htot. induction 1 as [|y l Hs IH Hhd]; simpl.
  - by repeat constructor.
  - destruct (le x y) eqn:Hxy.
    + constructor; [by constructor|]. constructor. unfold rel_of. by rewrite Hxy.
    + constructor; [done|]. apply HdRel_insert; [|done].
      destruct (Htot x y) as [Hle|Hle]; [|done].
      unfold rel_of in Hle. by rewrite Hxy in Hle.
Qed.

Lemma Sorted_sorted l : Total (rel_of le) → Sorted (rel_of le) (Py.sorted le l).
Proof.
  intros Htot. induction l as [|x l IH]; simpl; [constructor|].
  by apply Sorted_insert.
Qed.

(** For an antisymmetric total order the sorted list is a function of the
    multiset of elements. *)
Lemma sorted_unique l1 l2 :
  Total (rel_of le) → Transitive (rel_of le) → AntiSymm (=) (rel_of le) →
  l1 ≡ₚ l2 → Py.sorted le l1 = Py.sorted le l2.
Proof.
  intros Htot Htrans Hanti Hperm.
  apply (Sorted_unique (rel_of le)); [by apply Sorted_sorted..|].
  by rewrite !sorted_Permutation.
Qed.

Lemma Sorted_weaken (R1 R2 : relation A) l :
  (∀ x y, R1 x y → R2 x y) → Sorted R1 l → Sorted R2 l.
Proof.
  intros HR. induction 1 as [|x l Hs IH Hhd]; constructor; [done|].
  destruct Hhd; constructor; auto.
Qed.
End sorting_facts.

Lemma sorted_strings_unique (l1 l2 : list string) :
  l1 ≡ₚ l2 → Py.sorted String.leb l1 = Py.sorted String.leb l2.
Proof.
  apply sorted_unique.
  - exact String.le_total.
  - apply (@PreOrder_Transitive _ _ (@partial_order_pre _ _ String.le_po)).
  - apply (@partial_order_anti_symm _ _ String.le_po).
Qed.

(** ** Grouping nodes by community *)

Section group_facts.
Context (level : comms → Z).
Implicit Types (cm : Py.dict string comms) (groups : Py.dict Z (list string)).

Lemma get_append {K B} `{EqDecision K} (k k' : K) (x : B) (d : Py.dict K (list B)) :
  Py.get k' (Py.append k x d)
  = if decide (k = k') then Some (default [] (Py.get k d) ++ [x]) else Py.get k' d.
Proof. unfold Py.append. by rewrite get_set. Qed.

Lemma members_cons nc cm c :
  members level c (nc :: cm)
  = if decide (level nc.2 = c) then nc.1 :: members level c cm else members level c cm.
Proof. unfold members. rewrite filter_cons. by case_decide. Qed.

Lemma get_group_loop cm groups c :
  Py.get c (foldl (λ groups nc, Py.append (level nc.2) nc.1 groups) groups cm)
  = match Py.get c groups, members level c cm with
    | None, [] => None
    | o, m => Some (default [] o ++ m)
    end.
Proof.
  revert groups. induction cm as [|nc cm IH]; intros groups; simpl.
  - unfold members. simpl. destruct (Py.get c groups); simpl; [|done].
    by rewrite app_nil_r.
  - rewrite IH, get_append, members_cons.
    destruct (decide (level nc.2 = c)) as [Heq|Hne]; [|done].
    rewrite Heq. destruct (Py.get c groups) as [l|]; simpl; [|done].
    by rewrite <- app_assoc.
Qed.

Lemma get_group_by cm c :
  Py.get c (group_by level cm)
  = match members level c cm with [] => None | m => Some m end.
Proof. unfold group_by. rewrite get_group_loop. simpl. by destruct (members _ _ _). Qed.

Lemma NoDup_keys_group_by cm : NoDup (Py.keys (group_by level cm)).
Proof.
  unfold group_by.
  assert (∀ groups, NoDup (Py.keys groups) →
    NoDup (Py.keys (foldl (λ groups nc, Py.append (level nc.2) nc.1 groups) groups cm)))
    as Hloop.
  { induction cm as [|nc cm IH]; intros groups Hg; simpl; [done|].
    apply IH. by apply NoDup_keys_set. }
  apply Hloop. constructor.
Qed.

Lemma members_Permutation cm1 cm2 c :
  cm1 ≡ₚ cm2 → members level c cm1 ≡ₚ members level c cm2.
Proof. intros Hp. unfold members. by rewrite Hp. Qed.
End group_facts.

(** ** Fingerprinter: claim C1 *)

Section fingerprinter_facts.
Context `{Hashlib}.
Import CommunityFingerprinter.

Lemma get_hash_groups_loop groups fp c :
  NoDup (Py.keys groups) →
  Py.get (Py.str c)
    (foldl (λ fp g, Py.set (Py.str g.1) (_hash_nodes g.2) fp) fp groups)
  = match Py.get c groups with
    | Some nodes => Some (_hash_nodes nodes)
    | None => Py.get (Py.str c) fp
    end.
Proof.
  revert fp. induction groups as [|[c0 nodes0] groups IH]; intros fp Hnd; [done|].
  unfold Py.keys in Hnd. rewrite fmap_cons in Hnd.
  apply NoDup_cons in Hnd as [Hc0 Hnd]. simpl. rewrite IH by done.
  rewrite get_set. destruct (decide (c0 = c)) as [->|Hne].
  - assert (Py.get c groups = None) as -> by (by apply get_None).
    by rewrite decide_True.
  - rewrite decide_False; [done|]. intros Heq. by apply (inj pretty) in Heq.
Qed.

Lemma get_hash_groups level cm c :
  Py.get (Py.str c) (hash_groups (group_by level cm))
  = match members level c cm with [] => None | m => Some (_hash_nodes m) end.
Proof.
  unfold hash_groups. rewrite get_hash_groups_loop by apply NoDup_keys_group_by.
  rewrite get_group_by. by destruct (members _ _ _).
Qed.

Lemma hash_nodes_Permutation l1 l2 : l1 ≡ₚ l2 → _hash_nodes l1 = _hash_nodes l2.
Proof. intros Hp. unfold _hash_nodes. by rewrite (sorted_strings_unique l1 l2). Qed.

Lemma get_hash_groups_Permutation level cm1 cm2 c :
  cm1 ≡ₚ cm2 →
  Py.get (Py.str c) (hash_groups (group_by level cm1))
  = Py.get (Py.str c) (hash_groups (group_by level cm2)).
Proof.
  intros Hp. rewrite !get_hash_groups.
  pose proof (members_Permutation level cm1 cm2 c Hp) as Hm.
  destruct (members level c cm1) as [|x m1] eqn:E1.
  - apply Permutation_nil_l in Hm. by rewrite <- Hm.
  - destruct (members level c cm2) as [|y m2] eqn:E2.
    + by apply Permutation_nil_r in Hm.
    + f_equal. by apply hash_nodes_Permutation.
Qed.

(** C1. The fingerprint of a community is the digest of the comma-joined,
    lexicographically sorted list of its member ids (as strings, so ["10"]
    sorts before ["2"], also for ids that were integers before [str]); it is
    therefore the same for any two member lists that are permutations of each
    other, and for any two duplicate-free lists with the same set of ids;
    [generate_fingerprints] records for every community exactly that digest
    of its members, so the same assignment listed in any order (in
    particular, the same assignment read twice) yields the same fingerprint
    for every community at both levels. *)
Theorem fingerprint_depends_only_on_member_set :
  (∀ node_list,
     let sorted_nodes := Py.sorted String.leb node_list in
     _hash_nodes node_list = sha256_hexdigest (Py.join "," sorted_nodes)
     ∧ Sorted String.le sorted_nodes ∧ sorted_nodes ≡ₚ node_list) ∧
  Py.sorted String.leb ["9"; "10"; "2"] = ["10"; "2"; "9"] ∧
  _hash_nodes (Py.str <$> [2; 9; 10]) = _hash_nodes ["10"; "9"; "2"] ∧
  (∀ l1 l2, l1 ≡ₚ l2 → _hash_nodes l1 = _hash_nodes l2) ∧
  (∀ l1 l2, NoDup l1 → NoDup l2 → (∀ x, x ∈ l1 ↔ x ∈ l2) →
     _hash_nodes l1 = _hash_nodes l2) ∧
  (∀ community_map c,
     let fps := generate_fingerprints community_map in
     Py.get (Py.str c) (macro_communities fps)
     = match members macro_community c community_map with
       | [] => None
       | m => Some (_hash_nodes m)
       end
     ∧ Py.get (Py.str c) (micro_communities fps)
       = match members micro_community c community_map with
         | [] => None
         | m => Some (_hash_nodes m)
         end) ∧
  (∀ community_map1 community_map2 c,
     community_map1 ≡ₚ community_map2 →
     let fps1 := generate_fingerprints community_map1 in
     let fps2 := generate_fingerprints community_map2 in
     Py.get (Py.str c) (macro_communities fps1) = Py.get (Py.str c) (macro_communities fps2)
     ∧ Py.get (Py.str c) (micro_communities fps1)
       = Py.get (Py.str c) (micro_communities fps2)).
Proof.
  split_and!.
  - intros l. simpl. split_and!; [done | | apply sorted_Permutation].
    apply (Sorted_sorted String.leb l), String.le_total.
  - reflexivity.
  - apply hash_nodes_Permutation, (bool_decide_unpack _). by vm_compute.
  - apply hash_nodes_Permutation.
  - intros l1 l2 Hn1 Hn2 Hset. by apply hash_nodes_Permutation, NoDup_Permutation.
  - intros cm c. simpl. split; apply get_hash_groups.
  - intros cm1 cm2 c Hp. simpl. split; by apply get_hash_groups_Permutation.
Qed.
End fingerprinter_facts.

(** The map of the repository's self-test listed in two orders has the same
  fingerprints. *)
Lemma fingerprint_depends_only_on_member_set_witness :
  let cm1 := [("1", Comms 0 0); ("2", Comms 0 0); ("3", Comms 1 1)] in
  let cm2 := [("3", Comms 1 1); ("2", Comms 0 0); ("1", Comms 0 0)] in
  let fps1 := @CommunityFingerprinter.generate_fingerprints transparent_digest cm1 in
  let fps2 := @CommunityFingerprinter.generate_fingerprints transparent_digest cm2 in
  cm1 ≡ₚ cm2 ∧
  Py.get (Py.str 0) (CommunityFingerprinter.macro_communities fps1) = Some "1,2" ∧
  Py.get (Py.str 0) (CommunityFingerprinter.macro_communities fps1)
  = Py.get (Py.str 0) (CommunityFingerprinter.macro_communities fps2).
Proof.
  assert ([("1", Comms 0 0); ("2", Comms 0 0); ("3", Comms 1 1)]
        ≡ₚ [("3", Comms 1 1); ("2", Comms 0 0); ("1", Comms 0 0)]) as Hp.
  { apply (bool_decide_unpack _). vm_compute. exact I. }
  split_and!; [exact Hp | reflexivity |].
  destruct (@fingerprint_depends_only_on_member_set transparent_digest)
    as (_ & _ & _ & _ & _ & _ & Hperm).
  exact (proj1 (Hperm _ _ 0 Hp)).
Defined.

(** ** Bridge identification: claim C2 *)

Section bridge_facts.
Import BridgeIdentifier.
Implicit Types (data : Py.dict string (Py.dict score_key nat)) (n : string) (key : score_key).
Implicit Types (cm : Py.dict string comms) (r : row) (df : list row).

Lemma get_update_score data n key n' :
  Py.get n' (_update_score data n key)
  = if decide (n = n')
    then let scores := default [] (Py.get n data) in
         Some (Py.set key (default 0 (Py.get key scores) + 1)%nat scores)
    else Py.get n' data.
Proof.
  unfold _update_score. rewrite get_set.
  destruct (decide (n ∈ Py.keys data)) as [Hin|Hin].
  - done.
  - rewrite !get_set. apply get_None in Hin. rewrite Hin.
    destruct (decide (n = n')) as [->|Hn]; [|done].
    by rewrite decide_True.
Qed.

Lemma score_of_update_score data n key n' key' :
  score_of key' (_update_score data n key) n'
  = (score_of key' data n' + if decide (n = n' ∧ key = key') then 1 else 0)%nat.
Proof.
  unfold score_of. rewrite get_update_score.
  destruct (decide (n = n')) as [->|Hn]; simpl.
  - rewrite get_set. destruct (decide (key = key')) as [->|Hk]; simpl.
    + rewrite decide_True by done. by destruct (Py.get n' data).
    + rewrite decide_False by (intros [_ ?]; done).
      destruct (Py.get n' data); simpl; lia.
  - rewrite decide_False by (intros [? _]; done). lia.
Qed.

Lemma keys_update_score data n key n' :
  n' ∈ Py.keys (_update_score data n key) ↔ n' = n ∨ n' ∈ Py.keys data.
Proof.
  rewrite !elem_of_keys, get_update_score. destruct (decide (n = n')) as [->|Hn].
  - split; [by left | by eexists].
  - split; [by right | intros [?|?]; congruence].
Qed.

Lemma NoDup_keys_update_score data n key :
  NoDup (Py.keys data) → NoDup (Py.keys (_update_score data n key)).
Proof.
  intros Hd. unfold _update_score. apply NoDup_keys_set.
  case_decide; [done | by apply NoDup_keys_set].
Qed.

Lemma scored_update_score data n key : scored data → scored (_update_score data n key).
Proof.
  intros Hd n'. rewrite keys_update_score, !score_of_update_score, (Hd n').
  destruct key; repeat case_decide;
    intuition (subst; try lia; try congruence; try (exfalso; eauto; fail)).
Qed.

Lemma score_of_scan_edge cm data r key n :
  score_of key (scan_edge cm data r) n
  = (score_of key data n
     + if crossing (level_of key) cm r && incident r n then 1 else 0)%nat.
Proof.
  unfold scan_edge, crossing, incident.
  destruct (Py.get (Py.str (source r)) cm) as [s|] eqn:Hs; [|simpl; lia].
  destruct (Py.get (Py.str (target r)) cm) as [t|] eqn:Ht; [|simpl; lia].
  assert (Py.str (source r) = n → Py.str (target r) = n → s = t) as Hsame.
  { intros E1 E2. rewrite E1 in Hs. rewrite E2 in Ht. congruence. }
  destruct key; simpl; repeat case_decide; rewrite ?score_of_update_score;
    repeat case_decide; repeat case_bool_decide; simpl;
    try lia; exfalso;
    intuition (subst; try lia; try congruence; try (exfalso; eauto; fail)).
Qed.

Lemma scan_edge_skip cm data r :
  Py.get (Py.str (source r)) cm = None ∨ Py.get (Py.str (target r)) cm = None →
  scan_edge cm data r = data.
Proof.
  unfold scan_edge. intros [->| ->]; [done|]. by destruct (Py.get _ cm).
Qed.

Lemma scored_scan_edge cm data r : scored data → scored (scan_edge cm data r).
Proof.
  intros Hd. unfold scan_edge.
  destruct (Py.get (Py.str (source r)) cm); [|done].
  destruct (Py.get (Py.str (target r)) cm); [|done].
  repeat case_decide; auto using scored_update_score.
Qed.

Lemma NoDup_keys_scan_edge cm data r :
  NoDup (Py.keys data) → NoDup (Py.keys (scan_edge cm data r)).
Proof.
  intros Hd. unfold scan_edge.
  destruct (Py.get (Py.str (source r)) cm); [|done].
  destruct (Py.get (Py.str (target r)) cm); [|done].
  repeat case_decide; auto using NoDup_keys_update_score.
Qed.

Lemma scan_loop cm df data key n :
  scored data → NoDup (Py.keys data) →
  let data' := foldl (scan_edge cm) data df in
  scored data' ∧ NoDup (Py.keys data') ∧
  score_of key data' n = (score_of key data n + cross_degree (level_of key) cm df n)%nat.
Proof.
  revert data. induction df as [|r df IH]; intros data Hs Hn; simpl.
  - unfold cross_degree. simpl. split_and!; [done..|lia].
  - destruct (IH (scan_edge cm data r)) as (Hs' & Hn' & Hsc);
      [by apply scored_scan_edge | by apply NoDup_keys_scan_edge |].
    split_and!; [done..|]. rewrite Hsc, score_of_scan_edge.
    unfold cross_degree. rewrite filter_cons.
    destruct (crossing _ _ _ && incident _ _); simpl; lia.
Qed.

Lemma tuple_leb_total : Total (rel_of (λ x y : bridge, tuple_leb (sort_key y) (sort_key x))).
Proof.
  intros x y. unfold rel_of, tuple_leb. simpl.
  destruct (Nat.ltb_spec (macro_score y) (macro_score x));
    destruct (Nat.ltb_spec (macro_score x) (macro_score y)); simpl; auto; try lia.
  assert (macro_score x = macro_score y) as -> by lia.
  rewrite Nat.eqb_refl. simpl.
  destruct (Nat.leb_spec (micro_score y) (micro_score x));
    destruct (Nat.leb_spec (micro_score x) (micro_score y)); simpl; auto; lia.
Qed.

Lemma tuple_leb_descending (x y : bridge) :
  rel_of (λ x y : bridge, tuple_leb (sort_key y) (sort_key x)) x y → by_scores_descending x y.
Proof.
  unfold rel_of, tuple_leb, by_scores_descending. simpl.
  intros [Hlt|[Heq Hle]%andb_prop_elim]%orb_prop_elim.
  - left. apply Is_true_true in Hlt. by apply Nat.ltb_lt.
  - right. apply Is_true_true in Heq, Hle. split; [by apply Nat.eqb_eq | by apply Nat.leb_le].
Qed.

(** C2. [identify_bridges] adds one to the macro (micro) score of both
    endpoints of every row whose endpoints both have an assignment entry and
    lie in different macro (micro) communities, and leaves the scores as they
    are on a row with a missing endpoint; so the result has exactly one entry
    for each node with a crossing incident row and none for the others, each
    entry carries the numbers of macro- and micro-crossing rows incident to
    its node, and the entries are sorted by (macro_score, micro_score)
    descending. On rows (1,2), (2,3) with nodes 1 and 2 in community 0 and
    node 3 in community 1, nodes 2 and 3 get macro_score 1 and node 1 has no
    entry. *)
Theorem identify_bridges_correct df cm :
  let bridges := identify_bridges df cm in
  (∀ data r key n,
     score_of key (scan_edge cm data r) n
     = (score_of key data n
        + if crossing (level_of key) cm r && incident r n then 1 else 0)%nat) ∧
  (∀ data r,
     Py.get (Py.str (source r)) cm = None ∨ Py.get (Py.str (target r)) cm = None →
     scan_edge cm data r = data) ∧
  NoDup (node_id <$> bridges) ∧
  (∀ n, n ∈ node_id <$> bridges
        ↔ (0 < cross_degree macro_community cm df n
               + cross_degree micro_community cm df n)%nat) ∧
  (∀ b, b ∈ bridges →
        macro_score b = cross_degree macro_community cm df (node_id b)
        ∧ micro_score b = cross_degree micro_community cm df (node_id b)) ∧
  Sorted by_scores_descending bridges ∧
  identify_bridges [Row 1 2 1 structural; Row 2 3 1 structural]
                   [("1", Comms 0 0); ("2", Comms 0 0); ("3", Comms 1 1)]
  = [Bridge "2" 1 1; Bridge "3" 1 1].
Proof.
  intros bridges.
  assert (scored ([] : Py.dict string (Py.dict score_key nat))) as Hs0.
  { intros n. unfold score_of. simpl. split; [by intros ?%elem_of_nil | lia]. }
  assert (NoDup (Py.keys ([] : Py.dict string (Py.dict score_key nat)))) as Hn0
    by constructor.
  set (data := foldl (scan_edge cm) [] df).
  assert (∀ key n, score_of key data n = cross_degree (level_of key) cm df n) as Hscore.
  { intros key n. unfold data.
    destruct (scan_loop cm df [] key n Hs0 Hn0) as (_ & _ & Heq). by rewrite Heq. }
  destruct (scan_loop cm df [] macro_bridge_score "" Hs0 Hn0) as (Hs & Hn & _).
  fold data in Hs, Hn.
  set (to_bridge := λ item : string * Py.dict score_key nat,
         {| node_id := item.1;
            macro_score := default 0%nat (Py.get macro_bridge_score item.2);
            micro_score := default 0%nat (Py.get micro_bridge_score item.2) |}).
  assert (bridges ≡ₚ to_bridge <$> data) as Hperm by apply sorted_Permutation.
  assert (node_id <$> bridges ≡ₚ Py.keys data) as Hkeys.
  { rewrite Hperm. unfold Py.keys. rewrite <- list_fmap_compose. done. }
  split_and!.
  - intros. apply score_of_scan_edge.
  - apply scan_edge_skip.
  - by rewrite Hkeys.
  - intros n. rewrite Hkeys, (Hs n), !Hscore. done.
  - intros b Hb. rewrite Hperm in Hb.
    apply list_elem_of_fmap in Hb as ([n sc] & -> & Hin).
    apply elem_of_get in Hin; [|done]. simpl.
    rewrite <- (Hscore macro_bridge_score), <- (Hscore micro_bridge_score).
    unfold score_of. by rewrite Hin.
  - eapply Sorted_weaken; [apply tuple_leb_descending|].
    apply Sorted_sorted, tuple_leb_total.
  - reflexivity.
Qed.
End bridge_facts.

(** The scenario of the repository's self-test, with a row to an unassigned
    node added. *)
Lemma identify_bridges_correct_witness :
  let cm := [("1", Comms 0 0); ("2", Comms 0 0); ("3", Comms 1 1)] in
  let df := [Row 1 2 1 structural; Row 2 3 1 structural; Row 3 7 1 semantic] in
  Py.get (Py.str 7) cm = None ∧
  BridgeIdentifier.scan_edge cm [] (Row 3 7 1 semantic) = [] ∧
  "1" ∉ BridgeIdentifier.node_id <$> BridgeIdentifier.identify_bridges df cm.
Proof.
  pose proof (identify_bridges_correct
    [Row 1 2 1 structural; Row 2 3 1 structural; Row 3 7 1 semantic]
    [("1", Comms 0 0); ("2", Comms 0 0); ("3", Comms 1 1)]) as (_ & Hskip & _ & Hin & _).
  split_and!.
  - reflexivity.
  - apply Hskip. right. reflexivity.
  - intros H1%Hin. vm_compute in H1. lia.
Defined.

(** ** Drift detection: claims C3 and C4 *)

Section drift_facts.
Import DriftDetector.
Implicit Types (current baseline : Py.dict string comms) (res : report).

Lemma classify_step baseline res item :
  let res' := classify baseline res item in
  new_nodes res' = new_nodes res ++ option_list (new_of baseline item) ∧
  stable_nodes res' = stable_nodes res ++ option_list (stable_of baseline item) ∧
  migrated_nodes res' = migrated_nodes res ++ option_list (migration_of baseline item) ∧
  total_nodes (summary res') = total_nodes (summary res) ∧
  drift_count (summary res')
  = (drift_count (summary res) + length (option_list (migration_of baseline item)))%nat ∧
  stability_index (summary res') = stability_index (summary res).
Proof.
  destruct item as [n curr].
  unfold classify, new_of, stable_of, migration_of, verdict_of. simpl.
  destruct (Py.get n baseline) as [prev|]; simpl.
  - destruct (decide (macro_community curr = macro_community prev)) as [Hm|Hm];
      destruct (decide (micro_community curr = micro_community prev)) as [Hu|Hu];
      repeat case_bool_decide; try tauto; repeat case_decide; try tauto; simpl;
      rewrite ?app_nil_r; split_and!; (done || lia).
  - rewrite ?app_nil_r. split_and!; (done || lia).
Qed.

Lemma omap_cons_app {X Y} (f : X → option Y) x l :
  omap f (x :: l) = option_list (f x) ++ omap f l.
Proof. simpl. by destruct (f x). Qed.

Lemma classify_loop baseline current res :
  let res' := foldl (classify baseline) res current in
  new_nodes res' = new_nodes res ++ omap (new_of baseline) current ∧
  stable_nodes res' = stable_nodes res ++ omap (stable_of baseline) current ∧
  migrated_nodes res' = migrated_nodes res ++ omap (migration_of baseline) current ∧
  total_nodes (summary res') = total_nodes (summary res) ∧
  drift_count (summary res')
  = (drift_count (summary res) + length (omap (migration_of baseline) current))%nat ∧
  stability_index (summary res') = stability_index (summary res).
Proof.
  revert res. induction current as [|item current IH]; intros res.
  - simpl. rewrite !app_nil_r. split_and!; (done || lia).
  - rewrite !omap_cons_app. cbn [foldl].
    destruct (IH (classify baseline res item)) as (-> & -> & -> & -> & -> & ->).
    destruct (classify_step baseline res item) as (-> & -> & -> & -> & -> & ->).
    rewrite <- !app_assoc, length_app. split_and!; (done || lia).
Qed.

(** In a list gathered from a dict with one element at most per entry, each
    tagged with the key of its entry, the elements tagged [n] are the one of
    the entry of [n], if any. *)
Lemma filter_omap_key {B} (f : string * comms → option B) (tag : B → string) current n :
  (∀ item b, f item = Some b → tag b = item.1) → NoDup (Py.keys current) →
  filter (λ b, tag b = n) (omap f current)
  = match Py.get n current with
    | Some v => option_list (f (n, v))
    | None => []
    end.
Proof.
  intros Htag. unfold Py.keys.
  induction current as [|[k v] current IH]; [done|]. csimpl.
  intros [Hk Hnd]%NoDup_cons. specialize (IH Hnd).
  destruct (decide (k = n)) as [->|Hne].
  - assert (Py.get n current = None) as Hnone by (by apply get_None).
    rewrite Hnone in IH. destruct (f (n, v)) as [b|] eqn:Hf; simpl; [|done].
    rewrite filter_cons, decide_True by (by apply (Htag _ _ Hf)). by rewrite IH.
  - destruct (f (k, v)) as [b|] eqn:Hf; [|done].
    rewrite filter_cons, decide_False; [done|].
    rewrite (Htag _ _ Hf). done.
Qed.

Lemma elem_of_filter_singleton (l : list string) n :
  filter (λ x, x = n) l = [n] → n ∈ l.
Proof.
  intros Hf. assert (n ∈ filter (λ x, x = n) l) as Hin by (rewrite Hf; left).
  by apply list_elem_of_filter in Hin as [_ ?].
Qed.

Lemma not_elem_of_filter_nil (l : list string) n :
  filter (λ x, x = n) l = [] → n ∉ l.
Proof.
  intros Hf Hin. assert (n ∈ filter (λ x, x = n) l) as Hin'
    by (by apply list_elem_of_filter).
  rewrite Hf in Hin'. by apply elem_of_nil in Hin'.
Qed.

Lemma detect_drift_lists current baseline :
  let res := detect_drift current baseline in
  new_nodes res = omap (new_of baseline) current ∧
  stable_nodes res = omap (stable_of baseline) current ∧
  migrated_nodes res = omap (migration_of baseline) current ∧
  total_nodes (summary res)
  = size (list_to_set (Py.keys current) ∪ list_to_set (Py.keys baseline) : gset string) ∧
  drift_count (summary res) = length (omap (migration_of baseline) current).
Proof.
  unfold detect_drift.
  match goal with |- context [foldl _ ?r current] =>
    destruct (classify_loop baseline current r) as (Hn & Hs & Hm & Ht & Hd & _) end.
  simpl in *. case_bool_decide; simpl; rewrite ?Hn, ?Hs, ?Hm, ?Ht, ?Hd; done.
Qed.


(** C3. Every node of the current map is reported in exactly one list: in
    [new_nodes] when the baseline has no entry for it; otherwise in
    [stable_nodes] when its macro and micro community ids are those of the
    baseline; otherwise by exactly one record of [migrated_nodes], carrying the
    baseline and current ids and the tag MACRO when the macro id differs (also
    when both differ) and MICRO when only the micro id does; [drift_count] is
    the number of such records. On baseline {1:{0,0}, 2:{0,0}} and current
    {1:{0,0}, 2:{1,1}, 3:{1,1}}, node 1 is stable, node 2 migrated with tag
    MACRO, node 3 new, and the drift count is 1. *)
Theorem detect_drift_classifies current baseline n curr :
  NoDup (Py.keys current) → (n, curr) ∈ current →
  let res := detect_drift current baseline in
  let records := filter (λ m, node_id m = n) (migrated_nodes res) in
  match Py.get n baseline with
  | None => n ∈ new_nodes res ∧ (n ∉ stable_nodes res) ∧ records = []
  | Some prev =>
      if decide (macro_community curr = macro_community prev
                 ∧ micro_community curr = micro_community prev)
      then n ∈ stable_nodes res ∧ (n ∉ new_nodes res) ∧ records = []
      else (n ∉ stable_nodes res) ∧ (n ∉ new_nodes res)
           ∧ records = [ {| node_id := n;
                            from_macro := macro_community prev;
                            to_macro := macro_community curr;
                            from_micro := micro_community prev;
                            to_micro := micro_community curr;
                            drift_type :=
                              if decide (macro_community curr ≠ macro_community prev)
                              then MACRO else MICRO |} ]
  end
  ∧ drift_count (summary res) = length (migrated_nodes res)
  ∧ (let res0 := detect_drift [("1", Comms 0 0); ("2", Comms 1 1); ("3", Comms 1 1)]
                              [("1", Comms 0 0); ("2", Comms 0 0)] in
     stable_nodes res0 = ["1"]
     ∧ migrated_nodes res0 = [Migration "2" 0 1 0 1 MACRO]
     ∧ new_nodes res0 = ["3"]
     ∧ drift_count (summary res0) = 1%nat).
Proof.
  intros Hnd Hin res records.
  destruct (detect_drift_lists current baseline) as (Hnew & Hstable & Hmig & _ & Hcount).
  fold res in Hnew, Hstable, Hmig, Hcount.
  pose proof (elem_of_get _ _ _ Hnd Hin) as Hget.
  assert (filter (λ x, x = n) (new_nodes res) = option_list (new_of baseline (n, curr)))
    as Hn.
  { rewrite Hnew, (filter_omap_key _ id) by
      (try done; intros item b; unfold new_of; destruct (verdict_of _ _);
       first [by intros [= <-] | by intros [=]]).
    by rewrite Hget. }
  assert (filter (λ x, x = n) (stable_nodes res)
          = option_list (stable_of baseline (n, curr))) as Hs.
  { rewrite Hstable, (filter_omap_key _ id) by
      (try done; intros item b; unfold stable_of; destruct (verdict_of _ _);
       first [by intros [= <-] | by intros [=]]).
    by rewrite Hget. }
  assert (records = option_list (migration_of baseline (n, curr))) as Hm.
  { unfold records. rewrite Hmig, (filter_omap_key _ node_id); [by rewrite Hget| |done].
    intros item b. unfold migration_of, verdict_of.
    destruct (Py.get item.1 baseline); [|done]. case_decide; [done|].
    by intros [= <-]. }
  split_and!.
  - revert Hn Hs Hm. unfold new_of, stable_of, migration_of, verdict_of. simpl.
    destruct (Py.get n baseline) as [prev|]; simpl.
    + destruct (decide (_ ∧ _)) as [Hsame|Hdiff]; simpl; intros Hn Hs Hm.
      * split_and!;
          [by apply elem_of_filter_singleton | by apply not_elem_of_filter_nil | done].
      * split_and!; [by apply not_elem_of_filter_nil..|].
        rewrite Hm. repeat f_equal. repeat case_decide; tauto.
    + intros Hn Hs Hm. split_and!;
        [by apply elem_of_filter_singleton | by apply not_elem_of_filter_nil | done].
  - by rewrite Hcount, Hmig.
  - vm_compute. done.
Qed.




End drift_facts.

(** The repository's self-test: node 2 moved from community 0 to 1. *)
Lemma detect_drift_classifies_witness :
  let current := [("1", Comms 0 0); ("2", Comms 1 1); ("3", Comms 1 1)] in
  let baseline := [("1", Comms 0 0); ("2", Comms 0 0)] in
  NoDup (Py.keys current) ∧ ("2", Comms 1 1) ∈ current ∧
  filter (λ m, DriftDetector.node_id m = "2")
         (DriftDetector.migrated_nodes (DriftDetector.detect_drift current baseline))
  = [DriftDetector.Migration "2" 0 1 0 1 DriftDetector.MACRO].
Proof.
  assert (NoDup (Py.keys [("1", Comms 0 0); ("2", Comms 1 1); ("3", Comms 1 1)])) as Hnd
    by (apply (bool_decide_unpack _); vm_compute; exact I).
  assert (("2", Comms 1 1) ∈ [("1", Comms 0 0); ("2", Comms 1 1); ("3", Comms 1 1)]) as Hin
    by (apply (bool_decide_unpack _); vm_compute; exact I).
  split_and!; [exact Hnd | exact Hin |].
  pose proof (detect_drift_classifies _ [("1", Comms 0 0); ("2", Comms 0 0)] _ _ Hnd Hin)
    as (Hnode & _).
  simpl in Hnode. apply Hnode.
Defined.


(** ** Loops in the result monad *)

Section for_facts.
Context {A B : Type}.
Implicit Types (l : list A) (body : list B → A → Py.result (list B)).

(** A loop whose every iteration appends to the accumulator. *)
Lemma for_append l body (g : A → list B) acc :
  (∀ x acc, x ∈ l → body acc x = Py.Ok (acc ++ g x)) →
  Py.for_ l body acc = Py.Ok (acc ++ (l ≫= g)).
Proof.
  revert acc. induction l as [|x l IH]; intros acc Hbody; simpl.
  - by rewrite app_nil_r.
  - rewrite Hbody by left. simpl. rewrite IH by (intros; apply Hbody; by right).
    by rewrite app_assoc.
Qed.

(** A loop that reaches an iteration that raises. *)
Lemma for_raise l1 x l2 body e acc :
  (∀ y acc, y ∈ l1 → ∃ acc', body acc y = Py.Ok acc') →
  (∀ acc, body acc x = Py.Raise e) →
  Py.for_ (l1 ++ x :: l2) body acc = Py.Raise e.
Proof.
  revert acc. induction l1 as [|y l1 IH]; intros acc Hok Hraise; simpl.
  - by rewrite Hraise.
  - destruct (Hok y acc) as [acc' ->]; [left|]. simpl.
    apply IH; [|done]. intros; apply Hok; by right.
Qed.
End for_facts.



(** ** Projection: claims C5 and C8 *)

Section projector_facts.
Context {vec : Type} `{Numpy vec}.
Import GraphProjector.
Implicit Types (self : projector) (node_ids : list string) (embeddings : list vec).
Implicit Types (i j : nat).
Local Open Scope nat_scope.

Lemma compare_pair_ok self node_ids embeddings i acc j :
  i < length node_ids → j < length node_ids →
  i < length embeddings → j < length embeddings →
  compare_pair self node_ids embeddings i acc j
  = Py.Ok (acc ++ option_list (semantic_edge self node_ids embeddings i j)).
Proof.
  intros Hi Hj Hi' Hj'. unfold compare_pair, semantic_edge, Py.getitem.
  destruct (lookup_lt_is_Some_2 node_ids i Hi) as [id_i ->].
  destruct (lookup_lt_is_Some_2 node_ids j Hj) as [id_j ->].
  destruct (lookup_lt_is_Some_2 embeddings i Hi') as [vec_i ->].
  destruct (lookup_lt_is_Some_2 embeddings j Hj') as [vec_j ->].
  simpl. destruct (_ <=? _)%float; simpl; [done|]. by rewrite app_nil_r.
Qed.

Lemma compare_pair_raise self node_ids embeddings i acc j :
  i < length node_ids → j < length node_ids →
  length embeddings ≤ i ∨ length embeddings ≤ j →
  compare_pair self node_ids embeddings i acc j = Py.Raise Py.IndexError.
Proof.
  intros Hi Hj Hshort. unfold compare_pair, Py.getitem.
  destruct (lookup_lt_is_Some_2 node_ids i Hi) as [id_i ->].
  destruct (lookup_lt_is_Some_2 node_ids j Hj) as [id_j ->]. simpl.
  destruct (embeddings !! i) as [vec_i|] eqn:Ei; simpl; [|done].
  destruct Hshort as [Hs|Hs].
  - apply lookup_ge_None_2 in Hs. congruence.
  - apply lookup_ge_None_2 in Hs. by rewrite Hs.
Qed.

Lemma build_projection_ok self nodes edges embeddings :
  length nodes ≤ length embeddings ∨ length nodes < 2 →
  build_projection self nodes edges embeddings
  = Py.Ok (((λ edge, (source edge, target edge, alpha self, structural)) <$> edges)
           ++ semantic_edges self (Py.keys nodes) embeddings).
Proof.
  intros Hlen. unfold build_projection, semantic_edges.
  assert (length (Py.keys nodes) = length nodes) as Hkeys by apply length_fmap.
  apply for_append. intros i acc Hi%elem_of_seq.
  apply for_append. intros j acc' Hj%elem_of_seq.
  apply compare_pair_ok; lia.
Qed.

Lemma build_projection_raise self nodes edges embeddings :
  2 ≤ length nodes → length embeddings < length nodes →
  build_projection self nodes edges embeddings = Py.Raise Py.IndexError.
Proof.
  intros Hn Hm. unfold build_projection.
  assert (length (Py.keys nodes) = length nodes) as Hkeys by apply length_fmap.
  rewrite Hkeys. destruct (length nodes) as [|n] eqn:En; [lia|].
  cbn [seq]. apply (for_raise []); [by intros ?? ?%elem_of_nil|]. intros acc.
  set (m := length embeddings) in *. set (j0 := Nat.max m 1).
  replace (S n - (0 + 1)) with ((j0 - 1) + S (n - j0)) by lia.
  rewrite seq_app. cbn [seq]. apply for_raise.
  - intros j acc' Hj%elem_of_seq. eexists. apply compare_pair_ok; lia.
  - intros acc'. apply compare_pair_raise; lia.
Qed.








(** C8, as the code has it. A length mismatch is not validated: with at
    least two nodes and fewer vectors than nodes, [build_projection] fails with
    the [IndexError] of the first missing vector, raised inside the pairwise
    loop; with more vectors than nodes, or fewer than two nodes, it returns
    the projection of the nodes, the surplus being ignored. It never fails
    with [InputShapeError]. *)
Theorem build_projection_shape_mismatch self nodes edges embeddings :
  length embeddings ≠ length nodes →
  build_projection self nodes edges embeddings ≠ Py.Raise Py.InputShapeError ∧
  if decide (2 ≤ length nodes ∧ length embeddings < length nodes)
  then build_projection self nodes edges embeddings = Py.Raise Py.IndexError
  else build_projection self nodes edges embeddings
       = Py.Ok (((λ edge, (source edge, target edge, alpha self, structural)) <$> edges)
                ++ semantic_edges self (Py.keys nodes) embeddings).
Proof.
  intros Hne. case_decide as Hcase.
  - destruct Hcase. rewrite build_projection_raise by done. done.
  - rewrite build_projection_ok by lia. done.
Qed.
End projector_facts.


(** Four vectors for three nodes, and two vectors for three nodes: the first
    call returns a projection, the second fails with [IndexError]; neither
    fails with [InputShapeError]. *)
Lemma build_projection_unchecked_lengths :
  let longer := mock_embeddings ++ [[0.0; 0.0; 1.0]%float] in
  let shorter := take 2 mock_embeddings in
  length longer ≠ length mock_nodes ∧
  (∃ weight,
     @GraphProjector.build_projection _ list_numpy default_projector mock_nodes mock_edges
       longer
     = Py.Ok [("102", "101", 1.0%float, structural); ("101", "102", weight, semantic)]) ∧
  length shorter ≠ length mock_nodes ∧
  @GraphProjector.build_projection _ list_numpy default_projector mock_nodes mock_edges
    shorter
  = Py.Raise Py.IndexError.
Proof.
  split; [simpl; lia|]. split; [eexists; vm_compute; reflexivity|].
  split; [simpl; lia | vm_compute; reflexivity].
Qed.

Lemma build_projection_shape_mismatch_witness :
  let shorter := take 2 mock_embeddings in
  length shorter ≠ length mock_nodes ∧
  @GraphProjector.build_projection _ list_numpy default_projector mock_nodes mock_edges
    shorter
  = Py.Raise Py.IndexError.
Proof.
  assert (length (take 2 mock_embeddings) ≠ length mock_nodes) as Hne by (simpl; lia).
  split; [exact Hne|].
  exact (proj2 (@build_projection_shape_mismatch _ list_numpy default_projector
                  mock_nodes mock_edges (take 2 mock_embeddings) Hne)).
Defined.

(** ** Loops that fill a dictionary *)

Section fill_facts.
Context {X K V : Type} `{EqDecision K}.
Implicit Types (l : list X) (k : K).

(** A loop that always succeeds is a fold. *)
Lemma for_fold {S} (l : list X) (body : S → X → Py.result S) (f : S → X → S) s :
  (∀ x s, x ∈ l → body s x = Py.Ok (f s x)) → Py.for_ l body s = Py.Ok (foldl f s l).
Proof.
  revert s. induction l as [|x l IH]; intros s Hbody; [done|]. simpl.
  rewrite Hbody by left. simpl. apply IH. intros; apply Hbody; by right.
Qed.


Lemma get_set_loop_other (key : X → K) (val : X → V) l (d : Py.dict K V) k :
  k ∉ key <$> l →
  Py.get k (foldl (λ d x, Py.set (key x) (val x) d) d l) = Py.get k d.
Proof.
  revert d. induction l as [|x l IH]; intros d Hk; [done|]. simpl.
  rewrite fmap_cons in Hk. apply not_elem_of_cons in Hk as [Hne Hk].
  rewrite IH by done. rewrite get_set. by rewrite decide_False.
Qed.

Lemma get_set_loop (key : X → K) (val : X → V) l (d : Py.dict K V) x :
  NoDup (key <$> l) → x ∈ l →
  Py.get (key x) (foldl (λ d x, Py.set (key x) (val x) d) d l) = Some (val x).
Proof.
  revert d. induction l as [|y l IH]; intros d Hnd Hin; [by apply elem_of_nil in Hin|].
  rewrite fmap_cons in Hnd. apply NoDup_cons in Hnd as [Hy Hnd]. simpl.
  apply elem_of_cons in Hin as [->|Hin]; [|by apply IH].
  rewrite get_set_loop_other by done. rewrite get_set. by rewrite decide_True.
Qed.
End fill_facts.

Section append_facts.
Context {X K B : Type} `{EqDecision K}.
Implicit Types (l : list X) (k : K) (d : Py.dict K (list B)).


End append_facts.

(** The entries of [zip names values] at a name that occurs once. *)



(** ** Graphs from edge lists *)

Section igraph_facts.
Import Igraph.
Implicit Types (names : list Z) (tuples : list (Z * Z * Q)).






End igraph_facts.

(** ** Hierarchical clustering: claims C6 and C7 *)

Global Instance str_inj : Inj (=) (=) Py.str.
Proof. intros x y Heq. by apply (inj pretty) in Heq. Qed.

Section leiden_facts.
Context `{Leidenalg}.
Import LeidenEngineHierarchical.
Implicit Types (names membership : list Z) (hmap : Py.dict string (list Z)).
Implicit Types (g : Igraph.graph) (rs : list Q).
Local Open Scope nat_scope.




Lemma partition_level_raise g state res e :
  find_partition g res = Py.Raise e → partition_level g state res = Py.Raise e.
Proof. intros Hfind. unfold partition_level. by rewrite Hfind. Qed.








End leiden_facts.



Section cluster_facts.
Context `{Leidenalg}.
Import LeidenEngineHierarchical.
Local Open Scope nat_scope.


(** C7, as the code has it. A projection without rows is not rejected:
    [cluster] builds the graph without vertices and passes it to the
    partitioner at every resolution. When these calls return, the result is an
    empty node map and one level without communities per resolution; when the
    first of them raises, [cluster] fails with that exception. *)
Theorem cluster_empty_projection (self : engine) :
  let empty := {| Igraph.vs_name := []; Igraph.es := [] |} in
  ((∀ res, res ∈ resolutions self → ∃ membership, find_partition empty res = Py.Ok membership) →
   cluster self []
   = Py.Ok ([], (λ res, {| resolution := res; communities := [] |}) <$> resolutions self)) ∧
  (∀ res rs e,
     resolutions self = res :: rs → find_partition empty res = Py.Raise e →
     cluster self [] = Py.Raise e).
Proof.
  intros empty. unfold cluster. simpl. fold empty. split.
  - intros Hok.
    assert (∀ rs tree, (∀ res, res ∈ rs → ∃ m, find_partition empty res = Py.Ok m) →
      Py.for_ rs (partition_level empty) ([], tree)
      = Py.Ok ([], tree ++ ((λ res, {| resolution := res; communities := [] |}) <$> rs)))
      as Hloop.
    { induction rs as [|res rs IH]; intros tree Hrs; simpl.
      - by rewrite app_nil_r.
      - destruct (Hrs res) as [m Hm]; [left|].
        unfold partition_level at 1. rewrite Hm. simpl.
        rewrite IH by (intros; apply Hrs; by right). by rewrite <- app_assoc. }
    by rewrite Hloop.
  - intros res rs e -> Hraise. simpl. by rewrite (partition_level_raise _ _ _ e).
Qed.
End cluster_facts.



(** With the default resolutions and a partitioner that returns on the graph
    without vertices, [cluster] returns on a projection without rows. *)
Lemma cluster_accepts_empty_projection :
  @LeidenEngineHierarchical.cluster one_community
    (LeidenEngineHierarchical.__init__ [0.01; 0.1; 1.0]%Q) []
  = Py.Ok ([], [LeidenEngineHierarchical.Level 0.01 [];
                LeidenEngineHierarchical.Level 0.1 [];
                LeidenEngineHierarchical.Level 1.0 []])
  ∧ @LeidenEngineHierarchical.cluster one_community
      (LeidenEngineHierarchical.__init__ [0.01; 0.1; 1.0]%Q) []
    ≠ Py.Raise Py.EmptyGraphError.
Proof. split; [reflexivity | discriminate]. Qed.

Lemma cluster_empty_projection_witness :
  let self := LeidenEngineHierarchical.__init__ [0.01; 0.1; 1.0]%Q in
  (∀ res, res ∈ LeidenEngineHierarchical.resolutions self →
     ∃ membership,
       @find_partition one_community {| Igraph.vs_name := []; Igraph.es := [] |} res
       = Py.Ok membership) ∧
  @LeidenEngineHierarchical.cluster one_community self []
  = Py.Ok ([], (λ res, LeidenEngineHierarchical.Level res [])
               <$> LeidenEngineHierarchical.resolutions self).
Proof.
  assert (∀ res, res ∈ LeidenEngineHierarchical.resolutions
                         (LeidenEngineHierarchical.__init__ [0.01; 0.1; 1.0]%Q) →
     ∃ membership,
       @find_partition one_community {| Igraph.vs_name := []; Igraph.es := [] |} res
       = Py.Ok membership) as Hok by (intros res _; by eexists).
  split; [exact Hok|].
  exact (proj1 (@cluster_empty_projection one_community
                  (LeidenEngineHierarchical.__init__ [0.01; 0.1; 1.0]%Q)) Hok).
Defined.

(** ** Hub extraction: claims C9 and C10 *)




Section topology_facts.
Context `{IgraphPagerank}.
Import TopologyFilter.
Implicit Types (nodes : list string) (edges_df : list row) (top_k : nat).
Local Open Scope nat_scope.

Lemma score_loop (names : list Z) (scores : list Q) s acc :
  s + length names ≤ length scores →
  Py.for_ (zip (seq s (length names)) names)
    (λ node_scores item,
       sc ← Py.getitem scores item.1;
       mret (node_scores ++ [(Py.str item.2, sc)]))
    acc
  = Py.Ok (acc ++ ((λ x, (Py.str x.1, x.2)) <$> zip names (drop s scores))).
Proof.
  revert s acc. induction names as [|name names IH]; intros s acc Hlen.
  - simpl. by rewrite app_nil_r.
  - simpl in Hlen. destruct (lookup_lt_is_Some_2 scores s) as [sc Hsc]; [lia|].
    rewrite (drop_S _ _ _ Hsc). cbn [length seq zip zip_with Py.for_].
    unfold Py.getitem at 1. simpl. rewrite Hsc. simpl.
    rewrite IH by lia. by rewrite <- app_assoc.
Qed.

Lemma rank_nodes_cases top_k edges_df nodes :
  scores_every_vertex →
  rank_nodes top_k edges_df nodes
  = Py.Ok
      (if bool_decide (length nodes < 2)
       then (λ n, {| node_id := n; rank := 1; score := 1 |}) <$> nodes
       else match community_edges nodes edges_df with
            | [] => (λ n, {| node_id := n; rank := 1; score := 1 |}) <$> take top_k nodes
            | _ :: _ => scored_ranking top_k (community_edges nodes edges_df)
            end).
Proof.
  intros Hscores. unfold rank_nodes. case_bool_decide; [done|].
  destruct (community_edges nodes edges_df) as [|r edges] eqn:Hedges; [done|].
  unfold enumerate. rewrite score_loop by (rewrite Hscores; lia).
  by rewrite drop_0.
Qed.

Lemma extract_hubs_ok top_k edges_df community_map :
  scores_every_vertex →
  ∃ community_hubs,
    extract_hubs top_k edges_df community_map = Py.Ok community_hubs ∧
    ∀ c, match members micro_community c community_map with
         | [] => Py.get (Py.str c) community_hubs = None
         | nodes =>
             ∃ hubs, rank_nodes top_k edges_df nodes = Py.Ok hubs
                     ∧ Py.get (Py.str c) community_hubs = Some hubs
         end.
Proof.
  intros Hscores.
  set (value := λ nodes, match rank_nodes top_k edges_df nodes with
                         | Py.Ok hubs => hubs
                         | Py.Raise _ => []
                         end).
  set (groups := group_by micro_community community_map).
  exists (foldl (λ d item, Py.set (Py.str item.1) (value item.2) d) [] groups).
  assert (NoDup ((λ item : Z * list string, Py.str item.1) <$> groups)) as Hnd.
  { pose proof (NoDup_fmap_2 Py.str _ (NoDup_keys_group_by micro_community community_map))
      as Hn.
    unfold Py.keys in Hn. rewrite <- list_fmap_compose in Hn. exact Hn. }
  split.
  - unfold extract_hubs. fold groups. apply for_fold. intros [c nodes] d _. simpl.
    unfold value. by rewrite rank_nodes_cases.
  - intros c. pose proof (get_group_by micro_community community_map c) as Hget.
    fold groups in Hget.
    destruct (members micro_community c community_map) as [|n nodes] eqn:Hm.
    + rewrite (get_set_loop_other (λ item : Z * list string, Py.str item.1)
                 (λ item, value item.2)); [done|].
      intros (item & Heq & Hin)%list_elem_of_fmap.
      apply (inj Py.str) in Heq. subst c.
      assert (item.1 ∈ Py.keys groups) as Hkey by (apply list_elem_of_fmap; eauto).
      apply elem_of_keys in Hkey as [? Hsome]. congruence.
    + apply get_Some_elem_of in Hget.
      exists (value (n :: nodes)). split.
      * unfold value. by rewrite rank_nodes_cases.
      * by rewrite (get_set_loop (λ item : Z * list string, Py.str item.1)
                      (λ item, value item.2) groups [] (c, n :: nodes)).
Qed.



(** C9. In the result of [extract_hubs] a micro community with fewer than
    two members has one entry per member, of rank 1 and score 1, whatever
    [top_k] is, so a community of one member has exactly one; and a community
    of two members or more none of whose rows has both endpoints in it has
    such an entry for each of its first [top_k] members, in the order of the
    map. *)
Theorem extract_hubs_degenerate top_k edges_df community_map c :
  scores_every_vertex →
  let nodes := members micro_community c community_map in
  let entry := λ n, {| node_id := n; rank := 1; score := 1 |} in
  ∃ community_hubs,
    extract_hubs top_k edges_df community_map = Py.Ok community_hubs ∧
    (nodes ≠ [] → length nodes < 2 →
     Py.get (Py.str c) community_hubs = Some (entry <$> nodes)) ∧
    (∀ n, nodes = [n] → Py.get (Py.str c) community_hubs = Some [entry n]) ∧
    (2 ≤ length nodes → community_edges nodes edges_df = [] →
     Py.get (Py.str c) community_hubs = Some (entry <$> take top_k nodes)).
Proof.
  intros Hscores nodes entry.
  destruct (extract_hubs_ok top_k edges_df community_map Hscores)
    as (community_hubs & Hok & Hget).
  exists community_hubs. split; [done|]. specialize (Hget c). fold nodes in Hget.
  assert (nodes ≠ [] →
          ∃ hubs, rank_nodes top_k edges_df nodes = Py.Ok hubs
                  ∧ Py.get (Py.str c) community_hubs = Some hubs) as Hsome.
  { intros Hne. by destruct nodes. }
  clear Hget. split_and!.
  - intros Hne Hlen. destruct (Hsome Hne) as (hubs & Hrank & ->).
    rewrite rank_nodes_cases, bool_decide_true in Hrank by done. by injection Hrank as <-.
  - intros n Hn. destruct Hsome as (hubs & Hrank & ->); [by rewrite Hn|].
    rewrite rank_nodes_cases, bool_decide_true in Hrank by (rewrite ?Hn; simpl; done || lia).
    injection Hrank as <-. by rewrite Hn.
  - intros Hlen Hempty. destruct Hsome as (hubs & Hrank & ->).
    { intros Hnil. rewrite Hnil in Hlen. simpl in Hlen. lia. }
    rewrite rank_nodes_cases, bool_decide_false, Hempty in Hrank by (done || lia).
    by injection Hrank as <-.
Qed.

End topology_facts.

Lemma in_degree_share_every_vertex : @scores_every_vertex in_degree_share.
Proof. intros g. unfold pagerank, in_degree_share. by rewrite length_fmap, length_seq. Qed.

(** Community 1 of the example has the single member 4; community 2 has the
    members 5 and 6 and no row inside it. *)
Lemma extract_hubs_degenerate_witness :
  @scores_every_vertex in_degree_share ∧
  ∃ community_hubs,
    @TopologyFilter.extract_hubs in_degree_share 1 hub_proj hub_map = Py.Ok community_hubs ∧
    Py.get (Py.str 1) community_hubs = Some [TopologyFilter.Hub "4" 1 1] ∧
    Py.get (Py.str 2) community_hubs = Some [TopologyFilter.Hub "5" 1 1].
Proof.
  split; [exact in_degree_share_every_vertex|].
  destruct (@extract_hubs_degenerate in_degree_share 1 hub_proj hub_map 1
              in_degree_share_every_vertex) as (community_hubs & Hok & _ & Hone & _).
  exists community_hubs. split; [exact Hok|]. split; [by apply Hone|].
  destruct (@extract_hubs_degenerate in_degree_share 1 hub_proj hub_map 2
              in_degree_share_every_vertex) as (community_hubs' & Hok' & _ & _ & Hfew).
  rewrite Hok in Hok'. injection Hok' as <-.
  apply Hfew; [simpl; lia | reflexivity].
Defined.


(* ================================================================= *)
(** * Further properties *)

(** ** Stable sorting *)

Section stable_facts.
Context {A : Type} (le : A → A → bool) (P : A → Prop) `{∀ x, Decision (P x)}.

(** Elements that compare equal keep their order: [P] selects a class of
    elements that are below each other. *)
Lemma filter_insert x l :
  (∀ y, P x → P y → le x y = true) →
  filter P (Py.insert le x l) = filter P (x :: l).
Proof.
  intros Hclass. induction l as [|y l IH]; [done|]. simpl.
  destruct (le x y) eqn:Hxy; [done|].
  rewrite filter_cons, IH, !filter_cons.
  destruct (decide (P y)) as [Hy|Hy]; [|done].
  destruct (decide (P x)) as [Hx|Hx]; [|done].
  rewrite Hclass in Hxy by done. done.
Qed.

Lemma filter_sorted l :
  (∀ x y, P x → P y → le x y = true) → filter P (Py.sorted le l) = filter P l.
Proof.
  intros Hclass. induction l as [|x l IH]; [done|]. simpl.
  rewrite filter_insert by (intros; by apply Hclass).
  by rewrite !filter_cons, IH.
Qed.
End stable_facts.

Lemma filter_fmap {A B} (f : A → B) (P : B → Prop) `{∀ b, Decision (P b)} (l : list A) :
  filter P (f <$> l) = f <$> filter (λ a, P (f a)) l.
Proof.
  induction l as [|a l IH]; [done|]. rewrite fmap_cons, !filter_cons.
  destruct (decide (P (f a))); [by rewrite fmap_cons, IH | done].
Qed.

Lemma filter_ext_elem {A} (P Q : A → Prop) `{∀ a, Decision (P a)} `{∀ a, Decision (Q a)}
    (l : list A) :
  (∀ a, a ∈ l → P a ↔ Q a) → filter P l = filter Q l.
Proof.
  induction l as [|a l IH]; intros Hext; [done|]. rewrite !filter_cons.
  rewrite IH by (intros; apply Hext; by right).
  destruct (decide (P a)) as [Hp|Hp], (decide (Q a)) as [Hq|Hq]; try done.
  - destruct Hq. apply Hext; [left | done].
  - destruct Hp. apply Hext; [left | done].
Qed.

(** ** More on bridges *)

Section bridge_order.
Import BridgeIdentifier.
Implicit Types (data : Py.dict string (Py.dict score_key nat)) (n : string) (key : score_key).
Implicit Types (cm : Py.dict string comms) (r : row) (df : list row).

Lemma note_elem n l : n ∈ l → note n l = l.
Proof. intros Hin. unfold note. by rewrite decide_True. Qed.

Lemma elem_of_note n m l : m ∈ note n l ↔ m = n ∨ m ∈ l.
Proof.
  unfold note. case_decide.
  - split; [by right | intros [->|]; done].
  - rewrite elem_of_app, list_elem_of_singleton. tauto.
Qed.

Lemma keys_update_score_note data n key :
  Py.keys (_update_score data n key) = note n (Py.keys data).
Proof.
  unfold _update_score, note.
  destruct (decide (n ∈ Py.keys data)) as [Hin|Hin]; cbv zeta; rewrite keys_set.
  - by rewrite decide_True.
  - rewrite decide_True; rewrite keys_set, decide_False by done; [done|].
    apply elem_of_app. right. by apply list_elem_of_singleton.
Qed.

Lemma keys_scan_edge cm data r :
  Py.keys (scan_edge cm data r)
  = if crosses cm r
    then note (Py.str (target r)) (note (Py.str (source r)) (Py.keys data))
    else Py.keys data.
Proof.
  unfold scan_edge, crosses, crossing.
  destruct (Py.get (Py.str (source r)) cm) as [s|]; [|done].
  destruct (Py.get (Py.str (target r)) cm) as [t|]; [|done].
  set (src := Py.str (source r)). set (tgt := Py.str (target r)).
  assert (∀ l, note tgt (note src (note tgt (note src l))) = note tgt (note src l))
    as Hidem.
  { intros l. rewrite (note_elem src (note tgt (note src l))).
    - rewrite (note_elem tgt (note tgt (note src l))); [done|].
      apply elem_of_note. by left.
    - apply elem_of_note. right. apply elem_of_note. by left. }
  destruct (decide (macro_community s ≠ macro_community t)) as [Hm|Hm];
    destruct (decide (micro_community s ≠ micro_community t)) as [Hu|Hu];
    rewrite ?(bool_decide_true _ Hm), ?(bool_decide_false _ Hm),
      ?(bool_decide_true _ Hu), ?(bool_decide_false _ Hu); simpl;
    rewrite ?keys_update_score_note, ?Hidem; done.
Qed.

Lemma keys_scan_loop cm df data :
  Py.keys (foldl (scan_edge cm) data df)
  = foldl (λ seen r,
             if crosses cm r
             then note (Py.str (target r)) (note (Py.str (source r)) seen)
             else seen)
          (Py.keys data) df.
Proof.
  revert data. induction df as [|r df IH]; intros data; [done|]. simpl.
  by rewrite IH, keys_scan_edge.
Qed.

(** The dictionary gathered by the scan, before it is turned into a list:
    its keys are the crossed nodes in scan order, each with its scores. *)
Lemma bridge_data_facts cm df :
  let data := foldl (scan_edge cm) [] df in
  Py.keys data = first_crossed cm df ∧ NoDup (Py.keys data) ∧
  (∀ n, n ∈ Py.keys data
        ↔ (0 < cross_degree macro_community cm df n
               + cross_degree micro_community cm df n)%nat) ∧
  ∀ item, item ∈ data →
    (default 0%nat (Py.get macro_bridge_score item.2),
     default 0%nat (Py.get micro_bridge_score item.2)) = bridge_scores cm df item.1.
Proof.
  intros data.
  assert (scored ([] : Py.dict string (Py.dict score_key nat))) as Hs0.
  { intros n. unfold score_of. simpl. split; [by intros ?%elem_of_nil | lia]. }
  assert (NoDup (Py.keys ([] : Py.dict string (Py.dict score_key nat)))) as Hn0
    by constructor.
  assert (∀ key n, score_of key data n = cross_degree (level_of key) cm df n) as Hscore.
  { intros key n. unfold data.
    destruct (scan_loop cm df [] key n Hs0 Hn0) as (_ & _ & Heq). by rewrite Heq. }
  destruct (scan_loop cm df [] macro_bridge_score "" Hs0 Hn0) as (Hs & Hn & _).
  fold data in Hs, Hn. split_and!.
  - unfold data. by rewrite keys_scan_loop.
  - done.
  - intros n. by rewrite (Hs n), !Hscore.
  - intros [n sc] Hin. apply elem_of_get in Hin; [|done]. unfold bridge_scores. simpl.
    rewrite <- (Hscore macro_bridge_score), <- (Hscore micro_bridge_score).
    unfold score_of. by rewrite Hin.
Qed.
End bridge_order.

Section bridge_extras.
Import BridgeIdentifier.
Implicit Types (cm : Py.dict string comms) (r : row) (df : list row) (n : string).

Lemma tuple_leb_refl p : tuple_leb p p = true.
Proof.
  unfold tuple_leb. apply orb_true_iff. right. apply andb_true_iff.
  split; [apply Nat.eqb_refl | apply Nat.leb_refl].
Qed.

Lemma crossing_ends level cm r :
  crossing level cm r = true → Py.str (source r) ≠ Py.str (target r).
Proof.
  unfold crossing. intros Hc Heq. rewrite Heq in Hc.
  destruct (Py.get (Py.str (target r)) cm); [|done].
  by apply bool_decide_eq_true in Hc.
Qed.

Lemma sum_indicator n (l : list string) :
  NoDup l →
  sum_list_with (λ m, if bool_decide (n = m) then 1 else 0)%nat l
  = if decide (n ∈ l) then 1%nat else 0%nat.
Proof.
  induction 1 as [|m l Hm Hl IH]; [done|]. cbn [sum_list_with]. rewrite IH.
  destruct (decide (n = m)) as [->|Hne].
  - rewrite bool_decide_true by done. rewrite decide_False by done.
    rewrite decide_True by left. done.
  - rewrite bool_decide_false by done. destruct (decide (n ∈ l)) as [Hin|Hin].
    + rewrite decide_True by (by right). done.
    + rewrite decide_False; [done|]. by intros [?|?]%elem_of_cons.
Qed.

Lemma sum_list_with_add {A} (f g : A → nat) (l : list A) :
  sum_list_with (λ x, f x + g x)%nat l = (sum_list_with f l + sum_list_with g l)%nat.
Proof. induction l as [|x l IH]; [done|]. cbn [sum_list_with]. rewrite IH. lia. Qed.

Lemma sum_list_with_ext {A} (f g : A → nat) (l : list A) :
  (∀ x, f x = g x) → sum_list_with f l = sum_list_with g l.
Proof. intros Hfg. induction l as [|x l IH]; [done|]. cbn [sum_list_with]. by rewrite Hfg, IH. Qed.

Lemma sum_list_with_zero {A} (l : list A) : sum_list_with (λ _, 0%nat) l = 0%nat.
Proof. by induction l. Qed.

(** Each crossing row is counted at its two ends. *)
Lemma sum_cross_degree level cm df (l : list string) :
  NoDup l →
  (∀ r, r ∈ df → crossing level cm r = true →
        Py.str (source r) ∈ l ∧ Py.str (target r) ∈ l) →
  sum_list_with (cross_degree level cm df) l
  = (2 * length (filter (λ r, crossing level cm r) df))%nat.
Proof.
  intros Hl. unfold cross_degree. induction df as [|r df IH]; intros Hends.
  - by rewrite filter_nil, sum_list_with_zero.
  - assert (sum_list_with (λ n, length (filter (λ r0, crossing level cm r0 && incident r0 n) df)) l
            = (2 * length (filter (λ r0, crossing level cm r0) df))%nat) as IH'
      by (apply IH; intros; apply Hends; [by right | done]).
    clear IH. rewrite (filter_cons (λ r0, crossing level cm r0)).
    destruct (crossing level cm r) eqn:Hc.
    + destruct (Hends r) as [Hs Ht]; [left | done |].
      pose proof (crossing_ends _ _ _ Hc) as Hne.
      rewrite decide_True by done. cbn [length].
      transitivity
        (sum_list_with
           (λ n, ((if bool_decide (Py.str (source r) = n) then 1 else 0)
                  + (if bool_decide (Py.str (target r) = n) then 1 else 0))
                 + length (filter (λ r0, crossing level cm r0 && incident r0 n) df))%nat l).
      * apply sum_list_with_ext. intros n. rewrite filter_cons.
        assert (incident r n = bool_decide (Py.str (source r) = n)
                               || bool_decide (Py.str (target r) = n)) as Hi by done.
        destruct (bool_decide (Py.str (source r) = n)) eqn:Hsn;
          destruct (bool_decide (Py.str (target r) = n)) eqn:Htn; cbn [orb] in Hi.
        -- apply bool_decide_eq_true in Hsn, Htn. destruct Hne. by rewrite Hsn, Htn.
        -- by rewrite decide_True by (rewrite Hc, Hi; exact I).
        -- by rewrite decide_True by (rewrite Hc, Hi; exact I).
        -- by rewrite decide_False by (rewrite Hc, Hi; intros []).
      * rewrite !sum_list_with_add, !sum_indicator by done.
        rewrite !decide_True by done. rewrite IH'. lia.
    + rewrite decide_False by (by intros []). rewrite <- IH'.
      apply sum_list_with_ext. intros n. rewrite filter_cons.
      by rewrite decide_False by (rewrite Hc; intros []).
Qed.
End bridge_extras.

Section bridge_theorems.
Import BridgeIdentifier.
Implicit Types (cm : Py.dict string comms) (r : row) (df : list row) (n : string).

Lemma cross_degree_pos level cm df r n :
  r ∈ df → crossing level cm r = true → incident r n = true →
  (0 < cross_degree level cm df n)%nat.
Proof.
  intros Hin Hc Hi. unfold cross_degree.
  assert (r ∈ filter (λ r0, crossing level cm r0 && incident r0 n) df) as Hr.
  { apply list_elem_of_filter. split; [|done]. by rewrite Hc, Hi. }
  destruct (filter _ df); [by apply elem_of_nil in Hr | simpl; lia].
Qed.

Lemma cross_degree_pos_inv level cm df n :
  (0 < cross_degree level cm df n)%nat →
  ∃ r, r ∈ df ∧ crossing level cm r = true ∧ incident r n = true.
Proof.
  unfold cross_degree. intros Hpos.
  destruct (filter _ df) as [|r l] eqn:Hf; [simpl in Hpos; lia|].
  assert (r ∈ filter (λ r0, crossing level cm r0 && incident r0 n) df) as Hr
    by (rewrite Hf; left).
  apply list_elem_of_filter in Hr as [Hr Hin]. exists r.
  apply Is_true_true, andb_true_iff in Hr. tauto.
Qed.

Lemma incident_source r : incident r (Py.str (source r)) = true.
Proof. unfold incident. by rewrite bool_decide_true. Qed.

Lemma incident_target r : incident r (Py.str (target r)) = true.
Proof. unfold incident. rewrite (bool_decide_true (Py.str (target r) = _)) by done. apply orb_true_r. Qed.

Lemma sum_list_with_fmap_ext {A B C} (f : B → nat) (g : A → B) (h : C → nat) (k : A → C)
    (l : list A) :
  (∀ x, x ∈ l → f (g x) = h (k x)) →
  sum_list_with f (g <$> l) = sum_list_with h (k <$> l).
Proof.
  induction l as [|x l IH]; intros Hext; [done|]. rewrite !fmap_cons. cbn [sum_list_with].
  rewrite Hext by left. rewrite IH; [done|]. intros; apply Hext; by right.
Qed.

(** X1. [identify_bridges] returns the empty list exactly when no row of the
    projection joins two nodes of the assignment that lie in different
    communities at the macro or at the micro level; so a projection inside one
    community, and rows whose endpoints the assignment does not know, yield no
    bridge. *)
Theorem identify_bridges_nil_iff df cm :
  identify_bridges df cm = [] ↔ ∀ r, r ∈ df → crosses cm r = false.
Proof.
  destruct (bridge_data_facts cm df) as (_ & _ & Hkeys & _). cbv zeta in Hkeys.
  unfold identify_bridges. revert Hkeys.
  generalize (foldl (scan_edge cm) [] df). intros data Hkeys. split.
  - intros Hnil r Hin. destruct (crosses cm r) eqn:Hc; [exfalso | done].
    assert (data = []) as Hdata.
    { apply (f_equal length) in Hnil.
      rewrite (Permutation_length (sorted_Permutation _ _)), length_fmap in Hnil.
      by destruct data. }
    assert (Py.str (source r) ∈ Py.keys data) as Hsrc.
    { apply Hkeys. apply orb_true_iff in Hc as [Hc|Hc].
      - pose proof (cross_degree_pos _ _ _ _ _ Hin Hc (incident_source r)). lia.
      - pose proof (cross_degree_pos _ _ _ _ _ Hin Hc (incident_source r)). lia. }
    rewrite Hdata in Hsrc. by apply elem_of_nil in Hsrc.
  - intros Hno. destruct data as [|[n sc] data']; [done | exfalso].
    assert ((0 < cross_degree macro_community cm df n
                 + cross_degree micro_community cm df n)%nat) as Hn
      by (apply Hkeys; left).
    assert ((0 < cross_degree macro_community cm df n)%nat
            ∨ (0 < cross_degree micro_community cm df n)%nat) as [Hpos|Hpos] by lia.
    + apply cross_degree_pos_inv in Hpos as (r & Hin & Hc & _).
      specialize (Hno r Hin). unfold crosses in Hno. rewrite Hc in Hno. done.
    + apply cross_degree_pos_inv in Hpos as (r & Hin & Hc & _).
      specialize (Hno r Hin). unfold crosses in Hno. rewrite Hc in Hno.
      by rewrite orb_true_r in Hno.
Qed.

(** X2. Among the bridges with the same pair of scores, [identify_bridges]
    keeps the order in which the scan of the projection first met the nodes
    at a crossing row (source before target): the sort is stable. The
    entries with scores [(a, b)] are, in this order, the nodes first crossed
    whose numbers of macro- and micro-crossing incident rows are [a] and
    [b]. *)
Theorem identify_bridges_tie_order df cm (a b : nat) :
  filter (λ x, sort_key x = (a, b)) (identify_bridges df cm)
  = (λ n, Bridge n a b)
      <$> filter (λ n, bridge_scores cm df n = (a, b)) (first_crossed cm df).
Proof.
  destruct (bridge_data_facts cm df) as (Hkeys & _ & _ & Hitems).
  unfold identify_bridges. set (data := foldl (scan_edge cm) [] df) in *.
  rewrite filter_sorted by (intros x y -> ->; apply tuple_leb_refl).
  rewrite <- Hkeys. unfold Py.keys. rewrite !filter_fmap, <- list_fmap_compose.
  rewrite (filter_ext_elem _ (λ item, bridge_scores cm df item.1 = (a, b))).
  - apply list_fmap_ext. intros i item Hlook%list_elem_of_lookup_2.
    apply list_elem_of_filter in Hlook as [Hitem Hin]. simpl. specialize (Hitems item Hin). rewrite Hitem in Hitems.
    injection Hitems as -> ->. done.
  - intros item Hin. unfold sort_key. simpl. by rewrite (Hitems item Hin).
Qed.

(** X3. The macro scores of all bridges add up to twice the number of rows
    that cross macro communities, and likewise at the micro level: every
    crossing row counts once for each of its two ends, which are distinct
    nodes. *)
Theorem identify_bridges_score_sum df cm :
  let bridges := identify_bridges df cm in
  sum_list_with macro_score bridges
  = (2 * length (filter (λ r, crossing macro_community cm r) df))%nat
  ∧ sum_list_with micro_score bridges
    = (2 * length (filter (λ r, crossing micro_community cm r) df))%nat.
Proof.
  destruct (bridge_data_facts cm df) as (_ & Hnodup & Hkeys & Hitems).
  cbv zeta. unfold identify_bridges. set (data := foldl (scan_edge cm) [] df) in *.
  assert (∀ level r, r ∈ df → crossing level cm r = true →
            (level = macro_community ∨ level = micro_community) →
            Py.str (source r) ∈ Py.keys data ∧ Py.str (target r) ∈ Py.keys data) as Hends.
  { intros level r Hin Hc Hlevel. split; apply Hkeys.
    - pose proof (cross_degree_pos _ _ _ _ _ Hin Hc (incident_source r)).
      destruct Hlevel as [->| ->]; lia.
    - pose proof (cross_degree_pos _ _ _ _ _ Hin Hc (incident_target r)).
      destruct Hlevel as [->| ->]; lia. }
  split.
  - rewrite (sum_list_with_Permutation_proper _ _ _ (sorted_Permutation _ _)).
    rewrite <- (sum_cross_degree macro_community cm df (Py.keys data)); [|done|eauto].
    unfold Py.keys. apply sum_list_with_fmap_ext. intros item Hin. simpl.
    specialize (Hitems item Hin). by injection Hitems as -> _.
  - rewrite (sum_list_with_Permutation_proper _ _ _ (sorted_Permutation _ _)).
    rewrite <- (sum_cross_degree micro_community cm df (Py.keys data)); [|done|eauto].
    unfold Py.keys. apply sum_list_with_fmap_ext. intros item Hin. simpl.
    specialize (Hitems item Hin). by injection Hitems as _ ->.
Qed.
End bridge_theorems.
